(** * http-import esbuild plugin: resolution, ledger, fetch and loader inference

    A shallow embedding of [src/httpImportEsbuildPlugin.ts].

    Conventions.
    - A JavaScript string is a [string]: a sequence of 8-bit code units, read
      as the Latin-1 range of JavaScript's UTF-16 units.  URL pathnames are
      ASCII (the URL serializer percent-encodes the rest) and header values
      are byte strings, so the functions below see nothing outside it.
    - [Map<string,string>] is a [gmap string string].
    - An asynchronous handler is a function of an explicit state (ledger,
      timer, clock, event trace) to an outcome and the state it leaves. *)

From Stdlib Require Import ZArith Ascii NArith DecimalString.
From Stdlib Require String.
From stdpp Require Import base option list gmap strings.

Local Open Scope Z_scope.

(** ** JavaScript string primitives used by the plugin *)

Module Js.

Definition code (c : ascii) : N := N_of_ascii c.

(** [String.prototype.toLowerCase] on one code unit: A-Z, and the Latin-1
    capitals U+00C0..U+00DE except the multiplication sign U+00D7. *)
Definition lower_char (c : ascii) : ascii :=
  let n := code c in
  if ((65 <=? n) && (n <=? 90))%N then ascii_of_N (n + 32)
  else if ((192 <=? n) && (n <=? 222) && negb (n =? 215))%N then ascii_of_N (n + 32)
  else c.

Fixpoint toLowerCase (s : string) : string :=
  match s with
  | EmptyString => EmptyString
  | String c r => String (lower_char c) (toLowerCase r)
  end.

(** White space and line terminators that [trim] removes, below U+0100:
    TAB, LF, VT, FF, CR, SPACE, NBSP. *)
Definition is_space (c : ascii) : bool :=
  let n := code c in
  ((9 <=? n) && (n <=? 13) || (n =? 32) || (n =? 160))%N.

Fixpoint trimStart (s : string) : string :=
  match s with
  | EmptyString => EmptyString
  | String c r => if is_space c then trimStart r else s
  end.

(** [trimEnd]: a character is dropped when it is white space and nothing
    but white space follows it. *)
Fixpoint trimEnd (s : string) : string :=
  match s with
  | EmptyString => EmptyString
  | String c r =>
      match trimEnd r with
      | EmptyString => if is_space c then EmptyString else String c EmptyString
      | r' => String c r'
      end
  end.

Definition trim (s : string) : string := trimEnd (trimStart s).

(** [s.split(sep)] for a one-character separator: the pieces between the
    separators, always at least one piece. *)
Fixpoint split (sep : ascii) (s : string) : list string :=
  match s with
  | EmptyString => [EmptyString]
  | String c r =>
      if Ascii.eqb c sep then EmptyString :: split sep r
      else match split sep r with
           | p :: ps => String c p :: ps
           | [] => [String c EmptyString]
           end
  end.

(** [xs.pop()]: the last element, [undefined] on an empty array. *)
Definition pop {A} (xs : list A) : option A := last xs.

(** [s.lastIndexOf(c)]: index of the last occurrence, [-1] if none. *)
Fixpoint lastIndexOf_from (c : ascii) (s : string) (i : Z) (found : Z) : Z :=
  match s with
  | EmptyString => found
  | String a r => lastIndexOf_from c r (i + 1) (if Ascii.eqb a c then i else found)
  end.

Definition lastIndexOf (c : ascii) (s : string) : Z := lastIndexOf_from c s 0 (-1).

(** [s.slice(n)] for [n >= 0]: the suffix from index [n]. *)
Fixpoint drop (n : nat) (s : string) : string :=
  match n, s with
  | O, _ => s
  | S k, EmptyString => EmptyString
  | S k, String _ r => drop k r
  end.

Definition slice (n : Z) (s : string) : string := drop (Z.to_nat n) s.

(** Template-literal rendering of a non-negative integer. *)
Definition show_nat (n : nat) : string := NilEmpty.string_of_uint (Nat.to_uint n).

(** [hay.includes(needle)], as a proposition. *)
Definition includes (hay needle : string) : Prop :=
  exists pre post, hay = pre +:+ needle +:+ post.

(** The names defined on [Object.prototype] (ECMA-262 with Annex B): what an
    ordinary object literal answers for besides its own keys. *)
Definition Object_prototype_keys : list string :=
  [ "constructor"; "__defineGetter__"; "__defineSetter__"; "hasOwnProperty";
    "__lookupGetter__"; "__lookupSetter__"; "isPrototypeOf";
    "propertyIsEnumerable"; "toString"; "valueOf"; "__proto__";
    "toLocaleString" ].

Definition on_Object_prototype (k : string) : bool :=
  existsb (String.eqb k) Object_prototype_keys.

End Js.

(** ** The platform's URL class

    The plugin calls [new URL(input, base).toString()] and
    [new URL(input).pathname].  The handlers below take these two operations
    as a parameter ([UrlApi]), so what is proved of them holds whatever the
    platform does.  Module [Url], packed as [whatwg] below, is a model of the
    WHATWG URL parser on a fragment of its input language, used to run the
    handlers on concrete URLs:
    - absolute URLs [http://host...] and [https://host...], scheme in lower
      case, host made of non-empty labels of [a-z0-9] whose last begins with
      a letter (no user info, no port, no IP address, nothing IDNA would
      rewrite);
    - relative references: scheme-relative, path-absolute, path-relative,
      query-only, fragment-only and empty;
    - path, query and fragment made of characters the serializer leaves
      alone (letters, digits and [-._~!$&()*+,;=:@]), with no percent sign.
    The model answers [None] where the platform throws [TypeError] and also
    where the input leaves the fragment. *)

Module Url.

Record t : Type := mk {
  scheme : string;
  host : string;
  path : list string;
  query : option string;
  fragment : option string
}.

Definition in_range (lo hi : N) (c : ascii) : bool :=
  ((lo <=? Js.code c) && (Js.code c <=? hi))%N.

Definition is_lower (c : ascii) : bool := in_range 97 122 c.
Definition is_alpha (c : ascii) : bool := in_range 65 90 c || is_lower c.
Definition is_digit (c : ascii) : bool := in_range 48 57 c.

Fixpoint mem_char (c : ascii) (s : string) : bool :=
  match s with
  | EmptyString => false
  | String a r => Ascii.eqb a c || mem_char c r
  end.

Fixpoint all_chars (p : ascii -> bool) (s : string) : bool :=
  match s with
  | EmptyString => true
  | String a r => p a && all_chars p r
  end.

(** Characters that are in none of the path, query and fragment
    percent-encode sets and have no role in the parser's state machine. *)
Definition plain (c : ascii) : bool :=
  is_alpha c || is_digit c || mem_char c "-._~!$&()*+,;=:@".

Definition plain_q (c : ascii) : bool := plain c || mem_char c "/?".

(** Cut at the first occurrence of [sep]: what precedes it, and what
    follows it when there is one. *)
Fixpoint cut (sep : ascii) (s : string) : string * option string :=
  match s with
  | EmptyString => (EmptyString, None)
  | String c r =>
      if Ascii.eqb c sep then (EmptyString, Some r)
      else let '(a, b) := cut sep r in (String c a, b)
  end.

Fixpoint strip_prefix (p s : string) : option string :=
  match p, s with
  | EmptyString, _ => Some s
  | String a p', String b s' => if Ascii.eqb a b then strip_prefix p' s' else None
  | String _ _, EmptyString => None
  end.

(** Scheme start state and scheme state: does the input begin with
    [ALPHA *( ALPHA / DIGIT / "+" / "-" / "." ) ":"] ? *)
Fixpoint scheme_tail (s : string) : bool :=
  match s with
  | EmptyString => false
  | String c r =>
      if Ascii.eqb c ":" then true
      else if is_alpha c || is_digit c || mem_char c "+-." then scheme_tail r
      else false
  end.

Definition has_scheme (s : string) : bool :=
  match s with
  | String c r => is_alpha c && scheme_tail r
  | EmptyString => false
  end.

(** A host of the fragment: dot-separated labels, none empty, made of
    [a-z0-9], the last one beginning with a letter (so that it is no IPv4
    number, decimal or hexadecimal). *)
Definition valid_label (l : string) : bool :=
  match l with
  | EmptyString => false
  | String _ _ => all_chars (fun c => is_lower c || is_digit c) l
  end.

Definition begins_with_letter (l : string) : bool :=
  match l with
  | String c _ => is_lower c
  | EmptyString => false
  end.

Definition valid_host (h : string) : bool :=
  let labels := Js.split "." h in
  forallb valid_label labels
  && match last labels with
     | Some l => begins_with_letter l
     | None => false
     end.

(** "Shorten a URL's path" for a scheme other than [file]. *)
Definition shorten (p : list string) : list string := removelast p.

(** Path state: each segment is appended, [.] is skipped and [..] shortens
    the path; a dot segment in last position leaves an empty segment. *)
Fixpoint walk (p : list string) (segs : list string) : list string :=
  match segs with
  | [] => p
  | [seg] =>
      if String.eqb seg ".." then shorten p ++ [EmptyString]
      else if String.eqb seg "." then p ++ [EmptyString]
      else p ++ [seg]
  | seg :: rest =>
      if String.eqb seg ".." then walk (shorten p) rest
      else if String.eqb seg "." then walk p rest
      else walk (p ++ [seg]) rest
  end.

Definition check_opt (p : ascii -> bool) (o : option string) : bool :=
  match o with Some s => all_chars p s | None => true end.

(** Split a reference into path, query and fragment parts. *)
Definition parts (s : string) : string * option string * option string :=
  let '(before, frag) := cut "#" s in
  let '(pth, qry) := cut "?" before in
  (pth, qry, frag).

(** Authority and what follows, after [scheme://] or after [//]. *)
Definition after_slashes (sch rest : string) : option t :=
  let '(pth, qry, frag) := parts rest in
  let '(h, tail) := cut "/" pth in
  if valid_host h && all_chars plain_q pth && check_opt plain_q qry && check_opt plain_q frag
  then Some (mk sch h (walk [] (Js.split "/" (default EmptyString tail))) qry frag)
  else None.

(** [new URL(s)] *)
Definition parse (s : string) : option t :=
  match strip_prefix "http://" s with
  | Some rest => after_slashes "http" rest
  | None =>
      match strip_prefix "https://" s with
      | Some rest => after_slashes "https" rest
      | None => None
      end
  end.

(** The parser run on [input] with base URL [base]. *)
Definition resolve (input : string) (base : t) : option t :=
  if has_scheme input then parse input
  else
    match strip_prefix "//" input with
    | Some rest => after_slashes (scheme base) rest
    | None =>
        let '(pth, qry, frag) := parts input in
        if all_chars plain_q pth && check_opt plain_q qry && check_opt plain_q frag then
          match strip_prefix "/" pth with
          | Some rest =>
              Some (mk (scheme base) (host base) (walk [] (Js.split "/" rest)) qry frag)
          | None =>
              match pth, qry with
              | EmptyString, None =>
                  Some (mk (scheme base) (host base) (path base) (query base) frag)
              | EmptyString, Some _ =>
                  Some (mk (scheme base) (host base) (path base) qry frag)
              | _, _ =>
                  Some (mk (scheme base) (host base)
                          (walk (shorten (path base)) (Js.split "/" pth)) qry frag)
              end
          end
        else None
    end.

Fixpoint join_path (p : list string) : string :=
  match p with
  | [] => EmptyString
  | seg :: rest => "/" +:+ seg +:+ join_path rest
  end.

Definition pathname_of (u : t) : string := join_path (path u).

Definition href (u : t) : string :=
  scheme u +:+ "://" +:+ host u +:+ pathname_of u
    +:+ match query u with Some q => "?" +:+ q | None => EmptyString end
    +:+ match fragment u with Some f => "#" +:+ f | None => EmptyString end.

(** [new URL(input, base).toString()]; the base is parsed first. *)
Definition toString (input base : string) : option string :=
  b ← parse base; u ← resolve input b; Some (href u).

(** [new URL(input).pathname] *)
Definition pathname (input : string) : option string :=
  u ← parse input; Some (pathname_of u).

End Url.

(** ** Loaders *)

(** esbuild's [Loader] string union; [L_js] is the string ["js"], and so on. *)
Inductive Loader : Type :=
  | L_base64 | L_binary | L_copy | L_css | L_dataurl | L_default | L_empty
  | L_file | L_js | L_json | L_jsx | L_local_css | L_text | L_ts | L_tsx.

Global Instance Loader_eq_dec : EqDecision Loader.
Proof. solve_decision. Defined.

(** What a JavaScript expression typed [Loader | undefined] holds at run time:
    a loader string, [undefined], or -- when it comes out of a property read
    on an object literal -- a member of [Object.prototype] (a function or an
    object, never a string). *)
Inductive LoaderValue : Type :=
  | VLoader (l : Loader)
  | VProtoMember (name : string)
  | VUndefined.

Global Instance LoaderValue_eq_dec : EqDecision LoaderValue.
Proof. solve_decision. Defined.

(** [a ?? b] *)
Definition nullish (a b : LoaderValue) : LoaderValue :=
  match a with VUndefined => b | _ => a end.

Infix "??" := nullish (at level 60, right associativity).

Definition of_option (o : option Loader) : LoaderValue :=
  match o with Some l => VLoader l | None => VUndefined end.

(** Own properties of the [EXT_TO_LOADER] object literal. *)
Definition EXT_TO_LOADER : gmap string Loader :=
  list_to_map
    [ ("js", L_js); ("mjs", L_js); ("cjs", L_js);
      ("ts", L_ts); ("mts", L_ts); ("cts", L_ts);
      ("jsx", L_jsx); ("tsx", L_tsx); ("json", L_json); ("css", L_css);
      ("txt", L_text) ].

(** [obj[key]] on an object literal: own property first, then the prototype. *)
Definition get_property (obj : gmap string Loader) (key : string) : LoaderValue :=
  match obj !! key with
  | Some l => VLoader l
  | None => if Js.on_Object_prototype key then VProtoMember key else VUndefined
  end.

Definition loaderFromPathname (pathname : string) : LoaderValue :=
  let last := default EmptyString (Js.pop (Js.split "/"%char pathname)) in
  let dot := Js.lastIndexOf "."%char last in
  if dot <=? 0 then VUndefined
  else
    let ext := Js.toLowerCase (Js.slice (dot + 1) last) in
    get_property EXT_TO_LOADER ext.

Definition loaderFromContentType (contentType : option string) : option Loader :=
  match contentType with
  | None => None
  | Some contentType =>
      let t := Js.toLowerCase (Js.trim (default EmptyString (head (Js.split ";"%char contentType)))) in
      if String.eqb t "application/javascript" || String.eqb t "text/javascript" then Some L_js
      else if String.eqb t "application/typescript" || String.eqb t "text/typescript" then Some L_ts
      else if String.eqb t "application/json" || String.eqb t "text/json" then Some L_json
      else if String.eqb t "text/css" then Some L_css
      else if String.eqb t "text/plain" then Some L_text
      else None
  end.

(** ** Errors, responses and the platform *)

Inductive JsError : Type :=
  | TypeError (message : string)   (* thrown by [new URL] *)
  | AbortError                     (* a fetch whose signal was aborted *)
  | Error (message : string)       (* [new Error(message)] *)
  | Thrown (what : string).        (* anything a hook or the transport throws *)

(** How a promise of the platform settles: at a time (milliseconds after the
    load started) with a value or an error, or never. *)
Inductive Timed (A : Type) : Type :=
  | FulfilledAt (t : N) (a : A)
  | RejectedAt (t : N) (e : JsError)
  | Never.
Arguments FulfilledAt {A} t a.
Arguments RejectedAt {A} t e.
Arguments Never {A}.

(** How a hook supplied by the caller ends. *)
Inductive HookResult (A : Type) : Type :=
  | HookReturns (a : A)
  | HookThrows (e : JsError)
  | HookHangs.
Arguments HookReturns {A} a.
Arguments HookThrows {A} e.
Arguments HookHangs {A}.

(** The part of a fetch [Response] the plugin reads: [status], [url] (the
    final URL after redirects, the empty string when the transport gives
    none), [headers.get("content-type")] and the body behind
    [arrayBuffer()]. *)
Record Response : Type := {
  status : nat;
  url : string;
  content_type : option string;
  body : Timed (list Byte.byte)
}.

(** [res.ok] *)
Definition ok (res : Response) : bool :=
  (200 <=? status res)%nat && (status res <=? 299)%nat.

Record UrlApi : Type := {
  URL_toString : string -> string -> option string;
  URL_pathname : string -> option string
}.

Definition whatwg : UrlApi :=
  {| URL_toString := Url.toString; URL_pathname := Url.pathname |}.

(** The platform: the URL class and, for each request URL, when and how
    [fetch] of it settles once redirects have been followed. *)
Record Platform : Type := {
  url_api : UrlApi;
  network : string -> Timed Response
}.

(** ** Hook arguments and results (esbuild's plugin API) *)

Record OnResolveArgs : Type := {
  ra_path : string;       (* the import path as written *)
  ra_importer : string;   (* path of the importing module *)
  ra_namespace : string   (* namespace of the importing module *)
}.

Record OnResolveResult : Type := {
  rr_path : string;
  rr_namespace : string
}.

Record OnLoadArgs : Type := {
  la_path : string;
  la_namespace : string;
  la_with : list (string * string)
}.

Record OnLoadResult : Type := {
  lr_contents : list Byte.byte;
  lr_loader : LoaderValue
}.

Definition LoaderResolver : Type :=
  OnLoadArgs -> Response -> HookResult (option Loader).

(** The plugin's parameters, each optional.  [timeoutMs] is a number of
    milliseconds, taken here as an integer of either sign. *)
Record HttpImportEsbuildPluginParams : Type := {
  namespace : option string;
  onLog : option (string -> HookResult unit);
  timeoutMs : option Z;
  loaderResolver : option LoaderResolver
}.

(** ** State, events and the handler monad *)

Inductive Event : Type :=
  | EvLog (message : string)
  | EvSetTimeout (ms : Z)
  | EvFetch (request : string)
  | EvAbort
  | EvClearTimeout
  | EvLedgerSet (key value : string)
  | EvArrayBuffer
  | EvLoaderResolver (path : string).

Inductive Timer : Type :=
  | NoTimer
  | Armed (deadline : N)
  | Fired
  | Cleared.

Record State : Type := {
  pathToResolvedUrl : gmap string string;
  timer : Timer;
  clock : N;
  trace : list Event
}.

Definition initial (ledger : gmap string string) : State :=
  {| pathToResolvedUrl := ledger; timer := NoTimer; clock := 0%N; trace := [] |}.

Inductive Outcome (A : Type) : Type :=
  | Returned (a : A)
  | Threw (e : JsError)
  | Pending.
Arguments Returned {A} a.
Arguments Threw {A} e.
Arguments Pending {A}.

Definition M (A : Type) : Type := State -> Outcome A * State.

Definition ret {A} (a : A) : M A := fun s => (Returned a, s).

Definition throw {A} (e : JsError) : M A := fun s => (Threw e, s).

Definition bind {A B} (m : M A) (k : A -> M B) : M B :=
  fun s =>
    match m s with
    | (Returned a, s') => k a s'
    | (Threw e, s') => (Threw e, s')
    | (Pending, s') => (Pending, s')
    end.

Notation "x <- m ;; k" := (bind m (fun x => k))
  (at level 100, m at next level, right associativity).
Notation "m ;;; k" := (bind m (fun _ => k))
  (at level 100, right associativity).

(** [try { m } finally { f }] *)
Definition try_finally {A} (m : M A) (f : M unit) : M A :=
  fun s =>
    match m s with
    | (Pending, s') => (Pending, s')
    | (o, s') =>
        match f s' with
        | (Returned _, s'') => (o, s'')
        | (Threw e, s'') => (Threw e, s'')
        | (Pending, s'') => (Pending, s'')
        end
    end.

Definition emit (ev : Event) : M unit :=
  fun s =>
    (Returned tt,
     {| pathToResolvedUrl := pathToResolvedUrl s; timer := timer s;
        clock := clock s; trace := trace s ++ [ev] |}).

Definition set_timer (t : Timer) (s : State) : State :=
  {| pathToResolvedUrl := pathToResolvedUrl s; timer := t;
     clock := clock s; trace := trace s |}.

Definition set_clock (t : N) (s : State) : State :=
  {| pathToResolvedUrl := pathToResolvedUrl s; timer := timer s;
     clock := t; trace := trace s |}.

(** The delay Node's timers give a timeout of [ms] milliseconds: a delay
    below 1 or above [TIMEOUT_MAX] (2^31 - 1) is replaced by 1 ms.  ([ms] is
    an integer; Node truncates a fractional delay after the same test.) *)
Definition TIMEOUT_MAX : Z := 2147483647.

Definition timer_delay (ms : Z) : N :=
  if (1 <=? ms) && (ms <=? TIMEOUT_MAX) then Z.to_N ms else 1%N.

(** [setTimeout(() => abortController.abort(), ms)] *)
Definition setTimeout (ms : Z) : M unit :=
  emit (EvSetTimeout ms) ;;;
  fun s => (Returned tt, set_timer (Armed (clock s + timer_delay ms)%N) s).

(** [clearTimeout(timer)]: disarms a pending timer, does nothing to one that
    ran already. *)
Definition clearTimeout : M unit :=
  emit EvClearTimeout ;;;
  fun s =>
    (Returned tt,
     match timer s with
     | Armed _ => set_timer Cleared s
     | _ => s
     end).

(** The timer's callback runs: the controller aborts and the pending
    operation rejects with [AbortError]. *)
Definition fire {A} (deadline : N) : M A :=
  fun s =>
    match emit EvAbort (set_clock (N.max (clock s) deadline) (set_timer Fired s)) with
    | (_, s') => (Threw AbortError, s')
    end.

Definition settle_at {A} (t : N) (o : Outcome A) : M A :=
  fun s => (o, set_clock (N.max (clock s) t) s).

(** Awaiting an operation that carries the controller's signal ([fetch], and
    the body stream of its response).  While the timer is armed, whichever
    comes first wins: the operation settling before the deadline, or the
    timer. *)
Definition await_abortable {A} (w : Timed A) : M A :=
  fun s =>
    match timer s with
    | Armed d =>
        match w with
        | FulfilledAt t a =>
            if (N.max (clock s) t <? d)%N then settle_at t (Returned a) s else fire d s
        | RejectedAt t e =>
            if (N.max (clock s) t <? d)%N then settle_at t (Threw e) s else fire d s
        | Never => fire d s
        end
    | Fired => (Threw AbortError, s)
    | NoTimer | Cleared =>
        match w with
        | FulfilledAt t a => settle_at t (Returned a) s
        | RejectedAt t e => settle_at t (Threw e) s
        | Never => (Pending, s)
        end
    end.

(** Calling (and awaiting) a hook of the caller. *)
Definition call_hook {A} (r : HookResult A) : M A :=
  match r with
  | HookReturns a => ret a
  | HookThrows e => throw e
  | HookHangs => fun s => (Pending, s)
  end.

(** [pathToResolvedUrl.set(key, value)] *)
Definition ledger_set (key value : string) : M unit :=
  emit (EvLedgerSet key value) ;;;
  fun s =>
    (Returned tt,
     {| pathToResolvedUrl := <[key := value]> (pathToResolvedUrl s);
        timer := timer s; clock := clock s; trace := trace s |}).

(** [pathToResolvedUrl.get(key)] *)
Definition ledger_get (key : string) : M (option string) :=
  fun s => (Returned (pathToResolvedUrl s !! key), s).

(** [a ?? b] on computations: [b] runs only when [a] came out nullish. *)
Definition or_else (a b : M LoaderValue) : M LoaderValue :=
  v <- a ;;
  match v with
  | VUndefined => b
  | _ => ret v
  end.

Infix "???" := or_else (at level 60, right associativity).

(** ** The plugin *)

(** A hook registration: esbuild runs the callback for a request whose path
    matches [filter] and, when [namespace] is given, whose namespace equals
    it (for [onResolve] the namespace of the importer, for [onLoad] the
    namespace of the module). *)
Record OnResolveHook : Type := {
  resolve_filter : string -> bool;
  resolve_namespace : option string;
  resolve_callback : OnResolveArgs -> M (option OnResolveResult)
}.

Record OnLoadHook : Type := {
  load_filter : string -> bool;
  load_namespace : option string;
  load_callback : OnLoadArgs -> M (option OnLoadResult)
}.

Record Plugin : Type := {
  name : string;
  onResolve_hooks : list OnResolveHook;
  onLoad_hooks : list OnLoadHook
}.

(** [/^https?:\/\//] *)
Definition filter_http (p : string) : bool :=
  match Url.strip_prefix "http://" p, Url.strip_prefix "https://" p with
  | None, None => false
  | _, _ => true
  end.

(** [/.*/] *)
Definition filter_any (p : string) : bool := true.

Section HttpImportEsbuildPlugin.

Variable platform : Platform.
Variable params : option HttpImportEsbuildPluginParams.

Definition the_namespace : string := default "_http_url" (params ≫= namespace).
Definition the_timeoutMs : Z := default 30000 (params ≫= timeoutMs).
Definition the_loaderResolver : option LoaderResolver := params ≫= loaderResolver.

(** [new URL(input, base).toString()] *)
Definition new_URL_toString (input base : string) : M string :=
  match URL_toString (url_api platform) input base with
  | Some s => ret s
  | None => throw (TypeError "Invalid URL")
  end.

(** [new URL(input).pathname] *)
Definition new_URL_pathname (input : string) : M string :=
  match URL_pathname (url_api platform) input with
  | Some s => ret s
  | None => throw (TypeError "Invalid URL")
  end.

(** [fetch(request, { signal: abortController.signal })] *)
Definition fetch (request : string) : M Response :=
  emit (EvFetch request) ;;;
  await_abortable (network platform request).

(** [res.arrayBuffer()] *)
Definition arrayBuffer (res : Response) : M (list Byte.byte) :=
  emit EvArrayBuffer ;;;
  await_abortable (body res).

(** First [onResolve]: absolute http(s) entry or import. *)
Definition onResolve_absolute (args : OnResolveArgs) : M (option OnResolveResult) :=
  ret (Some {| rr_path := ra_path args; rr_namespace := the_namespace |}).

(** Second [onResolve]: import inside a module of the namespace. *)
Definition onResolve_namespaced (args : OnResolveArgs) : M (option OnResolveResult) :=
  entry <- ledger_get (ra_importer args) ;;
  let base := default (ra_importer args) entry in
  p <- new_URL_toString (ra_path args) base ;;
  ret (Some {| rr_path := p; rr_namespace := the_namespace |}).

(** [params?.onLog?.(message)] *)
Definition log (message : string) : M unit :=
  match params ≫= onLog with
  | Some f => emit (EvLog message) ;;; call_hook (f message)
  | None => ret tt
  end.

Definition resolver_loader (args : OnLoadArgs) (res : Response) : M LoaderValue :=
  match the_loaderResolver with
  | Some f =>
      emit (EvLoaderResolver (la_path args)) ;;;
      r <- call_hook (f args res) ;;
      ret (of_option r)
  | None => ret VUndefined
  end.

Definition onLoad (args : OnLoadArgs) : M (option OnLoadResult) :=
  log ("Downloading: " +:+ la_path args) ;;;
  setTimeout the_timeoutMs ;;;
  res <- try_finally (fetch (la_path args)) clearTimeout ;;
  if negb (ok res) then
    throw (Error ("GET " +:+ la_path args +:+ " failed: status " +:+ Js.show_nat (status res)))
  else
    let resolvedUrl := if String.eqb (url res) "" then la_path args else url res in
    ledger_set (la_path args) resolvedUrl ;;;
    contents <- arrayBuffer res ;;
    loader <-
      (resolver_loader args res
       ??? (pathname <- new_URL_pathname (la_path args) ;; ret (loaderFromPathname pathname))
       ??? ret (of_option (loaderFromContentType (content_type res)))
       ??? ret (VLoader L_js)) ;;
    ret (Some {| lr_contents := contents; lr_loader := loader |}).

Definition httpImportEsbuildPlugin : Plugin :=
  {| name := "http-import";
     onResolve_hooks :=
       [ {| resolve_filter := filter_http;
            resolve_namespace := None;
            resolve_callback := onResolve_absolute |};
         {| resolve_filter := filter_any;
            resolve_namespace := Some the_namespace;
            resolve_callback := onResolve_namespaced |} ];
     onLoad_hooks :=
       [ {| load_filter := filter_any;
            load_namespace := Some the_namespace;
            load_callback := onLoad |} ] |}.

End HttpImportEsbuildPlugin.

(** ** The host's dispatch

    esbuild tries the registered callbacks in registration order, skips
    those whose filter or namespace does not match, and takes the first
    result that is not null; with none, the import is left to esbuild's own
    resolution (here [None]).  A registration without namespace, or with
    the empty string for namespace, matches every namespace. *)

Definition namespace_matches (want : option string) (have : string) : bool :=
  match want with
  | Some ns => String.eqb ns "" || String.eqb ns have
  | None => true
  end.

Fixpoint dispatch_resolve (hooks : list OnResolveHook) (args : OnResolveArgs)
  : M (option OnResolveResult) :=
  match hooks with
  | [] => ret None
  | h :: rest =>
      if namespace_matches (resolve_namespace h) (ra_namespace args)
         && resolve_filter h (ra_path args)
      then
        r <- resolve_callback h args ;;
        match r with
        | Some _ => ret r
        | None => dispatch_resolve rest args
        end
      else dispatch_resolve rest args
  end.

Fixpoint dispatch_load (hooks : list OnLoadHook) (args : OnLoadArgs)
  : M (option OnLoadResult) :=
  match hooks with
  | [] => ret None
  | h :: rest =>
      if namespace_matches (load_namespace h) (la_namespace args)
         && load_filter h (la_path args)
      then
        r <- load_callback h args ;;
        match r with
        | Some _ => ret r
        | None => dispatch_load rest args
        end
      else dispatch_load rest args
  end.

(** One import met during the walk of the module graph: resolve it, and load
    the module it names when a plugin claimed it. *)
Definition import_module (p : Plugin) (args : OnResolveArgs) : M (option OnLoadResult) :=
  r <- dispatch_resolve (onResolve_hooks p) args ;;
  match r with
  | Some rr =>
      dispatch_load (onLoad_hooks p)
        {| la_path := rr_path rr; la_namespace := rr_namespace rr; la_with := [] |}
  | None => ret None
  end.

(** esbuild accepts an [onLoad] result only when its [loader] is a string
    naming a loader. *)
Definition accepted_loader (r : OnLoadResult) : option Loader :=
  match lr_loader r with
  | VLoader l => Some l
  | _ => None
  end.

(** ** Vocabulary of the specification *)

(** The extension table and the content-type table as the specification
    lists them. *)
Definition extension_table : list (string * Loader) :=
  [ ("js", L_js); ("mjs", L_js); ("cjs", L_js);
    ("ts", L_ts); ("mts", L_ts); ("cts", L_ts);
    ("jsx", L_jsx); ("tsx", L_tsx); ("json", L_json); ("css", L_css);
    ("txt", L_text) ].

Definition content_type_table : list (string * Loader) :=
  [ ("application/javascript", L_js); ("text/javascript", L_js);
    ("application/typescript", L_ts); ("text/typescript", L_ts);
    ("application/json", L_json); ("text/json", L_json);
    ("text/css", L_css); ("text/plain", L_text) ].

Fixpoint table_lookup (tbl : list (string * Loader)) (k : string) : option Loader :=
  match tbl with
  | [] => None
  | (k', l) :: rest => if String.eqb k k' then Some l else table_lookup rest k
  end.

(** The media type of a content-type header: what precedes the first [;],
    trimmed and in lower case. *)
Definition media_type (header : string) : string :=
  Js.toLowerCase (Js.trim (fst (Url.cut ";" header))).

(** Upper case of the letters a-z, the other characters as they are. *)
Definition upper_char (c : ascii) : ascii :=
  let n := Js.code c in
  if ((97 <=? n) && (n <=? 122))%N then ascii_of_N (n - 32) else c.

Fixpoint upper_case (s : string) : string :=
  match s with
  | EmptyString => EmptyString
  | String c r => String (upper_char c) (upper_case r)
  end.

(** "First non-empty result wins", with a default. *)
Fixpoint first_nonempty (candidates : list (option Loader)) (dflt : Loader) : Loader :=
  match candidates with
  | [] => dflt
  | Some l :: _ => l
  | None :: rest => first_nonempty rest dflt
  end.

(** The loader string held by a value, if it is one. *)
Definition string_loader (v : LoaderValue) : option Loader :=
  match v with
  | VLoader l => Some l
  | _ => None
  end.

(** Resolution of [R] against [base] by the platform's URL class, tagged
    with the namespace; a malformed reference is a [TypeError]. *)
Definition resolved_against (platform : Platform) (tag R base : string)
  : Outcome (option OnResolveResult) :=
  match URL_toString (url_api platform) R base with
  | Some p => Returned (Some {| rr_path := p; rr_namespace := tag |})
  | None => Threw (TypeError "Invalid URL")
  end.

(** The [onLog] hook, if any, returns normally on [message]. *)
Definition log_returns (params : option HttpImportEsbuildPluginParams) (message : string) : Prop :=
  match params ≫= onLog with
  | Some f => f message = HookReturns tt
  | None => True
  end.

(** Number of events of a trace that satisfy [p]. *)
Definition count (p : Event -> bool) (tr : list Event) : nat := length (List.filter p tr).

Definition is_log (e : Event) : bool := match e with EvLog _ => true | _ => false end.
Definition is_fetch (e : Event) : bool := match e with EvFetch _ => true | _ => false end.
Definition is_ledger_set (e : Event) : bool := match e with EvLedgerSet _ _ => true | _ => false end.
Definition is_abort (e : Event) : bool := match e with EvAbort => true | _ => false end.
Definition is_armed (t : Timer) : bool := match t with Armed _ => true | _ => false end.

(** The deadline of the load's timer, in milliseconds after the load
    started: the delay Node gives to the configured [timeoutMs]. *)
Definition the_deadline (params : option HttpImportEsbuildPluginParams) : N :=
  timer_delay (the_timeoutMs params).

(** When the response is fully available: headers and whole body received. *)
Definition fully_available_at (platform : Platform) (request : string) : option N :=
  match network platform request with
  | FulfilledAt t res =>
      match body res with
      | FulfilledAt tb _ => Some (N.max t tb)
      | _ => None
      end
  | _ => None
  end.

(** The fetch call has not settled before the deadline [d]. *)
Definition unsettled_before (platform : Platform) (request : string) (d : N) : Prop :=
  match network platform request with
  | FulfilledAt t _ | RejectedAt t _ => (d <= t)%N
  | Never => True
  end.

(** Concrete platforms and arguments used in examples. *)
Definition serve (net : string -> Timed Response) : Platform :=
  {| url_api := whatwg; network := net |}.

Definition response (st : nat) (final : string) (ct : option string)
    (b : Timed (list Byte.byte)) : Response :=
  {| status := st; url := final; content_type := ct; body := b |}.

Definition load_args (p : string) : OnLoadArgs :=
  {| la_path := p; la_namespace := "_http_url"; la_with := [] |}.

(** One invocation of the load hook by the host, on a plugin instance whose
    ledger is [ledger]: the clock and the trace start afresh. *)
Definition load (platform : Platform) (params : option HttpImportEsbuildPluginParams)
    (args : OnLoadArgs) (ledger : gmap string string) : Outcome (option OnLoadResult) * State :=
  onLoad platform params args (initial ledger).

(** ** The load handler in two phases

    [onLoad] is [request_phase] followed by [response_phase]
    (lemma [onLoad_phases]); the proofs analyse the two separately. *)

Definition request_phase (platform : Platform) (params : option HttpImportEsbuildPluginParams)
    (args : OnLoadArgs) : M Response :=
  log params ("Downloading: " +:+ la_path args) ;;;
  setTimeout (the_timeoutMs params) ;;;
  try_finally (fetch platform (la_path args)) clearTimeout.

Definition effective_url (res : Response) (requested : string) : string :=
  if String.eqb (url res) "" then requested else url res.

Definition response_phase (platform : Platform) (params : option HttpImportEsbuildPluginParams)
    (args : OnLoadArgs) (res : Response) : M (option OnLoadResult) :=
  if negb (ok res) then
    throw (Error ("GET " +:+ la_path args +:+ " failed: status " +:+ Js.show_nat (status res)))
  else
    ledger_set (la_path args) (effective_url res (la_path args)) ;;;
    contents <- arrayBuffer res ;;
    loader <-
      (resolver_loader params args res
       ??? (pathname <- new_URL_pathname platform (la_path args) ;; ret (loaderFromPathname pathname))
       ??? ret (of_option (loaderFromContentType (content_type res)))
       ??? ret (VLoader L_js)) ;;
    ret (Some {| lr_contents := contents; lr_loader := loader |}).

(** Events of the log step. *)
Definition log_events (params : option HttpImportEsbuildPluginParams) (message : string) : list Event :=
  match params ≫= onLog with
  | Some _ => [EvLog message]
  | None => []
  end.

(** What the request phase of a load can come to. *)
Inductive RequestRun (platform : Platform) (params : option HttpImportEsbuildPluginParams)
    (args : OnLoadArgs) (ledger : gmap string string) : Outcome Response -> State -> Prop :=
  | LogHookFailed (o : Outcome Response) :
      ~ log_returns params ("Downloading: " +:+ la_path args) ->
      (forall res, o <> Returned res) ->
      RequestRun platform params args ledger o
        {| pathToResolvedUrl := ledger; timer := NoTimer; clock := 0;
           trace := log_events params ("Downloading: " +:+ la_path args) |}
  | RequestFulfilled (t : N) (res : Response) :
      log_returns params ("Downloading: " +:+ la_path args) ->
      network platform (la_path args) = FulfilledAt t res ->
      (t < the_deadline params)%N ->
      RequestRun platform params args ledger (Returned res)
        {| pathToResolvedUrl := ledger; timer := Cleared; clock := t;
           trace := log_events params ("Downloading: " +:+ la_path args)
                    ++ [EvSetTimeout (the_timeoutMs params); EvFetch (la_path args);
                        EvClearTimeout] |}
  | RequestRejected (t : N) (e : JsError) :
      log_returns params ("Downloading: " +:+ la_path args) ->
      network platform (la_path args) = RejectedAt t e ->
      (t < the_deadline params)%N ->
      RequestRun platform params args ledger (Threw e)
        {| pathToResolvedUrl := ledger; timer := Cleared; clock := t;
           trace := log_events params ("Downloading: " +:+ la_path args)
                    ++ [EvSetTimeout (the_timeoutMs params); EvFetch (la_path args);
                        EvClearTimeout] |}
  | RequestAborted :
      log_returns params ("Downloading: " +:+ la_path args) ->
      unsettled_before platform (la_path args) (the_deadline params) ->
      RequestRun platform params args ledger (Threw AbortError)
        {| pathToResolvedUrl := ledger; timer := Fired; clock := the_deadline params;
           trace := log_events params ("Downloading: " +:+ la_path args)
                    ++ [EvSetTimeout (the_timeoutMs params); EvFetch (la_path args);
                        EvAbort; EvClearTimeout] |}.

(** The explicit override, when one is configured, and the event of
    consulting it. *)
Definition override (params : option HttpImportEsbuildPluginParams)
    (args : OnLoadArgs) (res : Response) : HookResult (option Loader) :=
  match the_loaderResolver params with
  | Some f => f args res
  | None => HookReturns None
  end.

Definition resolver_events (params : option HttpImportEsbuildPluginParams)
    (args : OnLoadArgs) : list Event :=
  match the_loaderResolver params with
  | Some _ => [EvLoaderResolver (la_path args)]
  | None => []
  end.

(** The state once a success response was taken in: the ledger entry
    written, the body asked for, and what followed. *)
Definition after_response (args : OnLoadArgs) (res : Response) (s : State)
    (body_time : option N) (extra : list Event) : State :=
  {| pathToResolvedUrl :=
       <[la_path args := effective_url res (la_path args)]> (pathToResolvedUrl s);
     timer := timer s;
     clock := match body_time with Some tb => N.max (clock s) tb | None => clock s end;
     trace := trace s
              ++ [EvLedgerSet (la_path args) (effective_url res (la_path args)); EvArrayBuffer]
              ++ extra |}.

(** What the response phase can come to, from a state [s] whose timer is
    cleared. *)
Inductive ResponseRun (platform : Platform) (params : option HttpImportEsbuildPluginParams)
    (args : OnLoadArgs) (res : Response) (s : State)
  : Outcome (option OnLoadResult) -> State -> Prop :=
  | HttpFailure :
      ok res = false ->
      ResponseRun platform params args res s
        (Threw (Error ("GET " +:+ la_path args +:+ " failed: status "
                         +:+ Js.show_nat (status res)))) s
  | BodyNeverArrives :
      ok res = true -> body res = Never ->
      ResponseRun platform params args res s Pending (after_response args res s None [])
  | BodyFails (tb : N) (e : JsError) :
      ok res = true -> body res = RejectedAt tb e ->
      ResponseRun platform params args res s (Threw e) (after_response args res s (Some tb) [])
  | ResolverThrows (tb : N) (bytes : list Byte.byte) (e : JsError) :
      ok res = true -> body res = FulfilledAt tb bytes ->
      override params args res = HookThrows e ->
      ResponseRun platform params args res s (Threw e)
        (after_response args res s (Some tb) (resolver_events params args))
  | ResolverHangs (tb : N) (bytes : list Byte.byte) :
      ok res = true -> body res = FulfilledAt tb bytes ->
      override params args res = HookHangs ->
      ResponseRun platform params args res s Pending
        (after_response args res s (Some tb) (resolver_events params args))
  | Overridden (tb : N) (bytes : list Byte.byte) (l : Loader) :
      ok res = true -> body res = FulfilledAt tb bytes ->
      override params args res = HookReturns (Some l) ->
      ResponseRun platform params args res s
        (Returned (Some {| lr_contents := bytes; lr_loader := VLoader l |}))
        (after_response args res s (Some tb) (resolver_events params args))
  | InvalidPath (tb : N) (bytes : list Byte.byte) :
      ok res = true -> body res = FulfilledAt tb bytes ->
      override params args res = HookReturns None ->
      URL_pathname (url_api platform) (la_path args) = None ->
      ResponseRun platform params args res s (Threw (TypeError "Invalid URL"))
        (after_response args res s (Some tb) (resolver_events params args))
  | Inferred (tb : N) (bytes : list Byte.byte) (pathname : string) :
      ok res = true -> body res = FulfilledAt tb bytes ->
      override params args res = HookReturns None ->
      URL_pathname (url_api platform) (la_path args) = Some pathname ->
      ResponseRun platform params args res s
        (Returned (Some {| lr_contents := bytes;
                           lr_loader := loaderFromPathname pathname
                                        ?? of_option (loaderFromContentType (content_type res))
                                        ?? VLoader L_js |}))
        (after_response args res s (Some tb) (resolver_events params args)).

(** What a load can come to. *)
Inductive LoadRun (platform : Platform) (params : option HttpImportEsbuildPluginParams)
    (args : OnLoadArgs) (ledger : gmap string string)
  : Outcome (option OnLoadResult) -> State -> Prop :=
  | LoadStopsEarly (o : Outcome Response) (s : State) :
      RequestRun platform params args ledger o s ->
      (forall res, o <> Returned res) ->
      LoadRun platform params args ledger
        (match o with Threw e => Threw e | _ => Pending end) s
  | LoadGetsResponse (res : Response) (s : State) (o : Outcome (option OnLoadResult)) (s' : State) :
      RequestRun platform params args ledger (Returned res) s ->
      ResponseRun platform params args res s o s' ->
      LoadRun platform params args ledger o s'.

(** ** Further vocabulary and concrete scenarios *)

Definition is_array_buffer (e : Event) : bool := match e with EvArrayBuffer => true | _ => false end.
Definition is_set_timeout (e : Event) : bool := match e with EvSetTimeout _ => true | _ => false end.
Definition is_clear_timeout (e : Event) : bool := match e with EvClearTimeout => true | _ => false end.

(** The fetch of [la_path args] yields, before the deadline, a response with
    a success status. *)
Definition response_accepted (platform : Platform) (params : option HttpImportEsbuildPluginParams)
    (args : OnLoadArgs) (res : Response) : Prop :=
  log_returns params ("Downloading: " +:+ la_path args)
  /\ (exists t, network platform (la_path args) = FulfilledAt t res /\ (t < the_deadline params)%N)
  /\ ok res = true.

(** Extension inference on a canonical path: [loaderFromPathname] of its
    path-only component. *)
Definition extension_inference (platform : Platform) (canonical : string) : LoaderValue :=
  match URL_pathname (url_api platform) canonical with
  | Some pathname => loaderFromPathname pathname
  | None => VUndefined
  end.

(** A server answering every request at 1 ms with status 200, no final URL,
    the given content type and an empty body complete at 2 ms. *)
Definition serving (ct : option string) (request : string) : Timed Response :=
  FulfilledAt 1 (response 200 "" ct (FulfilledAt 2 [])).

(** A CDN that redirects the bare package URL to its entry file. *)
Definition cdn (request : string) : Timed Response :=
  if String.eqb request "https://cdn/pkg"
  then FulfilledAt 3 (response 200 "https://cdn/pkg/index.js" (Some "application/javascript")
                        (FulfilledAt 4 []))
  else Never.

Definition util_import : OnResolveArgs :=
  {| ra_path := "./util.js"; ra_importer := "https://cdn/pkg"; ra_namespace := "_http_url" |}.

Definition react_import : OnResolveArgs :=
  {| ra_path := "react"; ra_importer := "https://example.com/a.js"; ra_namespace := "_http_url" |}.

Definition not_found (request : string) : Timed Response :=
  FulfilledAt 2 (response 404 "" (Some "text/plain") (FulfilledAt 3 [])).

(** Headers in time, then the connection drops while the body is read. *)
Definition drops_body (request : string) : Timed Response :=
  FulfilledAt 1 (response 200 "" (Some "application/javascript") (RejectedAt 2 (Thrown "terminated"))).

(** Headers at 1 ms, body complete at 1000 ms. *)
Definition slow_body (request : string) : Timed Response :=
  FulfilledAt 1 (response 200 "" (Some "application/javascript") (FulfilledAt 1000 [])).

Definition with_timeout (ms : Z) : option HttpImportEsbuildPluginParams :=
  Some {| namespace := None; onLog := None; timeoutMs := Some ms; loaderResolver := None |}.

(** A caller's override that throws. *)
Definition throwing_resolver : option HttpImportEsbuildPluginParams :=
  Some {| namespace := None; onLog := None; timeoutMs := None;
          loaderResolver := Some (fun _ _ => HookThrows (Thrown "unsupported")) |}.

Definition logging : option HttpImportEsbuildPluginParams :=
  Some {| namespace := None; onLog := Some (fun _ => HookReturns tt);
          timeoutMs := Some 10; loaderResolver := None |}.

(** ** Vocabulary for the further properties *)

(** The loaders the extension table can name, and those the content-type
    switch can name. *)
Definition inferable_by_extension : list Loader :=
  [L_js; L_ts; L_jsx; L_tsx; L_json; L_css; L_text].

Definition inferable_by_content_type : list Loader :=
  [L_js; L_ts; L_json; L_css; L_text].

(** The import of [R] written in the module [importer]. *)
Definition import_from (R importer ns : string) : OnResolveArgs :=
  {| ra_path := R; ra_importer := importer; ra_namespace := ns |}.

(** A network that refuses the connection at 5 ms. *)
Definition refuses (request : string) : Timed Response :=
  RejectedAt 5 (Thrown "ECONNREFUSED").

(** A log hook that throws. *)
Definition throwing_log : option HttpImportEsbuildPluginParams :=
  Some {| namespace := None; onLog := Some (fun _ => HookThrows (Thrown "closed"));
          timeoutMs := None; loaderResolver := None |}.

(** A network that answers at once, at 0 ms, and one that answers at
    50 ms: status 200, [application/javascript], empty body. *)
Definition immediate (request : string) : Timed Response :=
  FulfilledAt 0 (response 200 "" (Some "application/javascript") (FulfilledAt 0 [])).

Definition after_50ms (request : string) : Timed Response :=
  FulfilledAt 50 (response 200 "" (Some "application/javascript") (FulfilledAt 50 [])).

(** The plugin registered with the empty string for namespace. *)
Definition empty_namespace : option HttpImportEsbuildPluginParams :=
  Some {| namespace := Some ""; onLog := None; timeoutMs := None; loaderResolver := None |}.

(** An override that always answers [text]. *)
Definition text_resolver : option HttpImportEsbuildPluginParams :=
  Some {| namespace := None; onLog := None; timeoutMs := None;
          loaderResolver := Some (fun _ _ => HookReturns (Some L_text)) |}.

(** A platform whose URL class rejects every input. *)
Definition no_urls (net : string -> Timed Response) : Platform :=
  {| url_api := {| URL_toString := fun _ _ => None; URL_pathname := fun _ => None |};
     network := net |}.

(** * Properties *)

(** ** The URL model and the loader tables on concrete inputs *)

Example Url_relative :
  Url.toString "./util.js" "https://cdn/pkg/index.js" = Some "https://cdn/pkg/util.js".
Proof. vm_compute. reflexivity. Qed.

Example Url_relative_unredirected :
  Url.toString "./util.js" "https://cdn/pkg" = Some "https://cdn/util.js".
Proof. vm_compute. reflexivity. Qed.

Example Url_bare :
  Url.toString "react" "https://example.com/a.js" = Some "https://example.com/react".
Proof. vm_compute. reflexivity. Qed.

Example Url_dot_segments :
  Url.toString "../x/./y/..?q=1#f" "https://a.b/c/d/e.js?z" = Some "https://a.b/c/x/?q=1#f".
Proof. vm_compute. reflexivity. Qed.

Example Url_empty_reference : Url.toString "" "https://a.b?x#y" = Some "https://a.b/?x".
Proof. vm_compute. reflexivity. Qed.

Example Url_pathname_drops_query_and_fragment :
  Url.pathname "https://example.com/a/mod.ts?v=1.json#x.css" = Some "/a/mod.ts".
Proof. vm_compute. reflexivity. Qed.

Example Url_rejects_numeric_host : Url.pathname "https://a.0xf/x" = None.
Proof. vm_compute. reflexivity. Qed.

Example loaderFromPathname_ts : loaderFromPathname "/mod.ts" = VLoader L_ts.
Proof. vm_compute. reflexivity. Qed.

Example loaderFromPathname_upper_case : loaderFromPathname "/a/b.c/Mod.TSX" = VLoader L_tsx.
Proof. vm_compute. reflexivity. Qed.

Example loaderFromPathname_dotfile : loaderFromPathname "/a/.json" = VUndefined.
Proof. vm_compute. reflexivity. Qed.

Example loaderFromContentType_parameters :
  loaderFromContentType (Some "  Application/TypeScript ; charset=utf-8") = Some L_ts.
Proof. vm_compute. reflexivity. Qed.

Example show_nat_404 : Js.show_nat 404 = "404".
Proof. vm_compute. reflexivity. Qed.

(** ** Strings *)

Lemma append_String c (a b : string) : String c a +:+ b = String c (a +:+ b).
Proof. reflexivity. Qed.

Lemma append_empty_r (s : string) : s +:+ "" = s.
Proof.
  induction s as [|c s IH]; [reflexivity|].
  rewrite append_String. by rewrite IH.
Qed.

Lemma append_assoc (a b c : string) : (a +:+ b) +:+ c = a +:+ b +:+ c.
Proof.
  induction a as [|x a IH]; [reflexivity|].
  rewrite !append_String. by rewrite IH.
Qed.

Lemma includes_suffix pre needle : Js.includes (pre +:+ needle) needle.
Proof. exists pre, "". by rewrite append_empty_r. Qed.

Lemma includes_infix pre needle post : Js.includes (pre +:+ needle +:+ post) needle.
Proof. by exists pre, post. Qed.

Lemma strip_prefix_app p rest : Url.strip_prefix p (p +:+ rest) = Some rest.
Proof.
  induction p as [|c p IH]; [reflexivity|].
  rewrite append_String. simpl. rewrite Ascii.eqb_refl. exact IH.
Qed.

Lemma filter_http_prefix P :
  (exists rest, P = "http://" +:+ rest \/ P = "https://" +:+ rest) -> filter_http P = true.
Proof.
  intros [rest [-> | ->]]; unfold filter_http.
  - rewrite strip_prefix_app. reflexivity.
  - rewrite (strip_prefix_app "https://"). destruct (Url.strip_prefix _ _); reflexivity.
Qed.

Lemma split_nonempty sep s : exists p ps, Js.split sep s = p :: ps.
Proof.
  induction s as [|c s (p & ps & IH)]; simpl; [by eexists _, _|].
  destruct (Ascii.eqb c sep); [by eexists _, _|]. rewrite IH. by eexists _, _.
Qed.

Lemma split_without sep s : Url.mem_char sep s = false -> Js.split sep s = [s].
Proof.
  induction s as [|c s IH]; simpl; [reflexivity|].
  destruct (Ascii.eqb c sep); simpl; [discriminate|]. intros H. by rewrite IH.
Qed.

Lemma split_app sep a b :
  Js.split sep (a +:+ String sep b) = Js.split sep a ++ Js.split sep b.
Proof.
  induction a as [|c a IH].
  - change ("" +:+ String sep b) with (String sep b). simpl. by rewrite Ascii.eqb_refl.
  - rewrite append_String. simpl. destruct (Ascii.eqb c sep); [by rewrite IH|].
    rewrite IH. by destruct (split_nonempty sep a) as (p & ps & ->).
Qed.

(** [s.split(sep)[0]] is what precedes the first separator. *)
Lemma head_split_cut sep s : head (Js.split sep s) = Some (fst (Url.cut sep s)).
Proof.
  induction s as [|c s IH]; simpl; [reflexivity|].
  destruct (Ascii.eqb c sep); [reflexivity|].
  destruct (split_nonempty sep s) as (p & ps & E). rewrite E in *. simpl in IH.
  destruct (Url.cut sep s) as [a b]. simpl in *. congruence.
Qed.

(** [pathname.split("/").pop()] is the last path segment. *)
Lemma last_segment dir seg :
  Url.mem_char "/" seg = false ->
  Js.pop (Js.split "/" (dir +:+ String "/" seg)) = Some seg.
Proof.
  intros H. unfold Js.pop. rewrite split_app, (split_without _ _ H). apply last_snoc.
Qed.

Lemma lastIndexOf_from_absent c s i found :
  Url.mem_char c s = false -> Js.lastIndexOf_from c s i found = found.
Proof.
  revert i found. induction s as [|a s IH]; intros i found; simpl; [reflexivity|].
  destruct (Ascii.eqb a c); simpl; [discriminate|]. intros H. by apply IH.
Qed.

Lemma lastIndexOf_from_last c stem ext i found :
  Url.mem_char c ext = false ->
  Js.lastIndexOf_from c (stem +:+ String c ext) i found
  = (i + Z.of_nat (String.length stem))%Z.
Proof.
  intros H. revert i found. induction stem as [|a stem IH]; intros i found.
  - change ("" +:+ String c ext) with (String c ext). simpl. rewrite Ascii.eqb_refl.
    rewrite lastIndexOf_from_absent by done. lia.
  - rewrite append_String. cbn [Js.lastIndexOf_from String.length]. rewrite IH. lia.
Qed.

(** ** The tables *)

Lemma table_lookup_In tbl k l : table_lookup tbl k = Some l -> In (k, l) tbl.
Proof.
  induction tbl as [|[k' l'] tbl IH]; simpl; [discriminate|].
  destruct (String.eqb_spec k k') as [->|]; [intros [= ->]; by left | intros H; right; auto].
Qed.

Lemma list_to_map_table (tbl : list (string * Loader)) k :
  (list_to_map tbl : gmap string Loader) !! k = table_lookup tbl k.
Proof.
  induction tbl as [|[k' l] tbl IH]; simpl; [apply lookup_empty|].
  rewrite lookup_insert. destruct (String.eqb_spec k k') as [->|Hne].
  - by rewrite decide_True.
  - by rewrite decide_False.
Qed.

(** A read of [EXT_TO_LOADER[k]]: the table of the specification, and behind
    it the members of [Object.prototype]. *)
Lemma get_property_table k :
  get_property EXT_TO_LOADER k
  = match table_lookup extension_table k with
    | Some l => VLoader l
    | None => if Js.on_Object_prototype k then VProtoMember k else VUndefined
    end.
Proof. unfold get_property, EXT_TO_LOADER. by rewrite list_to_map_table. Qed.

(** Extension inference on a pathname whose last segment is [stem.ext]: the
    extension, in lower case, is read from the table object. *)
Lemma loaderFromPathname_extension dir stem ext :
  Url.mem_char "/" stem = false -> Url.mem_char "/" ext = false ->
  Url.mem_char "." ext = false -> stem <> "" ->
  loaderFromPathname (dir +:+ String "/" (stem +:+ String "." ext))
  = get_property EXT_TO_LOADER (Js.toLowerCase ext).
Proof.
  intros H1 H2 H3 Hstem. unfold loaderFromPathname.
  assert (Hseg : Url.mem_char "/" (stem +:+ String "." ext) = false).
  { clear -H1 H2. induction stem as [|a stem IH]; [exact H2|].
    rewrite append_String. simpl in *. destruct (Ascii.eqb a "/"); [discriminate|]. auto. }
  rewrite (last_segment _ _ Hseg). cbn [from_option id].
  unfold Js.lastIndexOf. rewrite lastIndexOf_from_last by done.
  assert (0 < Z.of_nat (String.length stem))%Z by (destruct stem; [done | simpl; lia]).
  destruct (Z.leb_spec (0 + Z.of_nat (String.length stem)) 0); [lia|].
  unfold Js.slice.
  replace (Z.to_nat (0 + Z.of_nat (String.length stem) + 1)) with (S (String.length stem)) by lia.
  replace (Js.drop (S (String.length stem)) (stem +:+ String "." ext)) with ext; [reflexivity|].
  clear. induction stem as [|a stem IH]; [reflexivity|]. exact IH.
Qed.

(** No extension: the last segment has no dot, or its only dot comes first. *)
Lemma loaderFromPathname_no_extension dir seg :
  Url.mem_char "/" seg = false ->
  (Url.mem_char "." seg = false
   \/ exists rest, seg = String "." rest /\ Url.mem_char "." rest = false) ->
  loaderFromPathname (dir +:+ String "/" seg) = VUndefined.
Proof.
  intros H1 H2. unfold loaderFromPathname.
  rewrite (last_segment _ _ H1). cbn [from_option id]. unfold Js.lastIndexOf.
  destruct H2 as [H2 | (rest & -> & H2)].
  - by rewrite lastIndexOf_from_absent.
  - rewrite (lastIndexOf_from_last "." "" rest) by done. reflexivity.
Qed.

(** ** Runs of the handlers *)

Lemma ok_false_iff res : ok res = false <-> (status res < 200 \/ 299 < status res)%nat.
Proof. unfold ok. rewrite andb_false_iff, !Nat.leb_gt. reflexivity. Qed.

Lemma onResolve_namespaced_eq platform params args s :
  onResolve_namespaced platform params args s
  = (resolved_against platform (the_namespace params) (ra_path args)
       (default (ra_importer args) (pathToResolvedUrl s !! ra_importer args)), s).
Proof.
  unfold onResolve_namespaced, resolved_against, new_URL_toString, bind, ledger_get, ret, throw.
  destruct (URL_toString _ _ _); reflexivity.
Qed.

Lemma onLoad_phases platform params args s :
  onLoad platform params args s
  = bind (request_phase platform params args) (response_phase platform params args) s.
Proof.
  unfold onLoad, request_phase, response_phase, effective_url, bind.
  destruct (log params _ s) as [[| |] s1]; reflexivity.
Qed.

(** In the plugin's namespace the host hands the module to [onLoad]. *)
Lemma dispatch_load_in_namespace platform params args s :
  la_namespace args = the_namespace params ->
  dispatch_load (onLoad_hooks (httpImportEsbuildPlugin platform params)) args s
  = onLoad platform params args s.
Proof.
  intros Hns.
  cbn [httpImportEsbuildPlugin onLoad_hooks dispatch_load load_namespace load_filter
         load_callback namespace_matches].
  rewrite Hns, String.eqb_refl, orb_true_r. cbn [andb filter_any]. unfold bind.
  destruct (onLoad platform params args s) as [[[r|]| |] s1]; reflexivity.
Qed.

(** The log step either returns, leaving its events behind, or ends the
    load there. *)
Lemma log_step params message :
  (exists evs,
      (forall s, log params message s
                 = (Returned tt, {| pathToResolvedUrl := pathToResolvedUrl s; timer := timer s;
                                    clock := clock s; trace := trace s ++ evs |}))
      /\ log_returns params message /\ log_events params message = evs)
  \/ (exists o : Outcome unit,
      (forall s, log params message s
                 = (o, {| pathToResolvedUrl := pathToResolvedUrl s; timer := timer s;
                          clock := clock s; trace := trace s ++ log_events params message |}))
      /\ ~ log_returns params message
      /\ (o = Pending \/ exists e, o = Threw e)).
Proof.
  unfold log, log_returns, log_events, emit, call_hook, bind, ret, throw.
  destruct (params ≫= onLog) as [f|].
  - destruct (f message) as [[]| |] eqn:Hhook.
    + left. exists [EvLog message]. by repeat split.
    + right. exists (Threw e). repeat split; eauto; discriminate.
    + right. exists Pending. repeat split; eauto; discriminate.
  - left. exists []. repeat split. intros s. rewrite app_nil_r. by destruct s.
Qed.

Lemma request_phase_run platform params args ledger :
  exists o s,
    request_phase platform params args (initial ledger) = (o, s)
    /\ RequestRun platform params args ledger o s.
Proof.
  set (message := "Downloading: " +:+ la_path args).
  set (T := the_deadline params).
  assert (Hcmp : forall t, (N.max 0 t <? 0 + T)%N = true /\ (t < T)%N /\ N.max 0 t = t
                        \/ (N.max 0 t <? 0 + T)%N = false /\ (T <= t)%N).
  { intros t. destruct (N.ltb_spec (N.max 0 t) (0 + T)); [left | right]; repeat split; lia. }
  assert (Hfire : N.max 0 (0 + T) = T) by lia.
  destruct (log_step params message) as [[evs [Hrun [L E]]] | [o [Hrun [L Ho]]]].
  - (* the hook returned, or there is none *)
    unfold request_phase.
    unfold bind at 1. rewrite Hrun.
    unfold setTimeout, clearTimeout, try_finally, fetch, await_abortable,
      fire, settle_at, emit, bind, ret, set_timer, set_clock, initial. simpl.
    fold (the_deadline params). fold message T.
    destruct (network platform (la_path args)) as [t res|t e|] eqn:Hnet; simpl;
      try (destruct (Hcmp t) as [(-> & ? & ->) | (-> & ?)]; simpl);
      do 2 eexists; (split; [reflexivity|]);
      rewrite ?Hfire, <- ?app_assoc; simpl; rewrite <- E.
    + by eapply RequestFulfilled.
    + apply RequestAborted; [done|]. unfold unsettled_before. by rewrite Hnet.
    + by eapply RequestRejected.
    + apply RequestAborted; [done|]. unfold unsettled_before. by rewrite Hnet.
    + apply RequestAborted; [done|]. unfold unsettled_before. by rewrite Hnet.
  - pose proof (LogHookFailed platform params args ledger) as R0.
    fold message in R0.
    unfold request_phase. fold message.
    unfold bind at 1. rewrite Hrun. simpl.
    destruct Ho as [-> | [e ->]]; do 2 eexists; (split; [reflexivity|]); by apply R0.
Qed.

Ltac close_by c :=
  do 2 eexists; split; [reflexivity|];
  let R := fresh "R" in
  pose proof c as R;
  unfold after_response, resolver_events, override in R; simpl in R;
  repeat match goal with
         | H : the_loaderResolver _ = _ |- _ => rewrite H in R
         | H : loaderFromPathname _ = _ |- _ => rewrite H in R
         | H : loaderFromContentType _ = _ |- _ => rewrite H in R
         end;
  simpl in R; rewrite <- ?app_assoc; simpl;
  eapply R; first [eassumption | reflexivity].

Lemma response_phase_run platform params args res s :
  timer s = Cleared ->
  exists o s',
    response_phase platform params args res s = (o, s')
    /\ ResponseRun platform params args res s o s'.
Proof.
  intros Hs. destruct s as [L tm c tr]. simpl in Hs. subst tm.
  set (s0 := Build_State L Cleared c tr).
  unfold response_phase.
  destruct (ok res) eqn:Hok; simpl.
  2:{ do 2 eexists. split; [reflexivity|]. by apply HttpFailure. }
  unfold ledger_set, arrayBuffer, await_abortable, settle_at, resolver_loader, or_else,
    new_URL_pathname, call_hook, emit, bind, ret, throw, set_clock. simpl.
  destruct (body res) as [tb bytes|tb e|] eqn:Hbody; simpl.
  - destruct (the_loaderResolver params) as [f|] eqn:Hres; simpl.
    + destruct (f args res) as [[l|]| |] eqn:Hhook; simpl.
      * close_by (Overridden platform params args res s0).
      * destruct (URL_pathname (url_api platform) (la_path args)) as [pn|] eqn:Hpn; simpl.
        -- destruct (loaderFromPathname pn) eqn:Hp; simpl;
             [ | | destruct (loaderFromContentType (content_type res)) eqn:Hct; simpl ];
             close_by (fun tb bytes => Inferred platform params args res s0 tb bytes pn).
        -- close_by (InvalidPath platform params args res s0).
      * close_by (ResolverThrows platform params args res s0).
      * close_by (ResolverHangs platform params args res s0).
    + destruct (URL_pathname (url_api platform) (la_path args)) as [pn|] eqn:Hpn; simpl.
      * destruct (loaderFromPathname pn) eqn:Hp; simpl;
          [ | | destruct (loaderFromContentType (content_type res)) eqn:Hct; simpl ];
          close_by (fun tb bytes => Inferred platform params args res s0 tb bytes pn).
      * close_by (InvalidPath platform params args res s0).
  - close_by (BodyFails platform params args res s0).
  - close_by (BodyNeverArrives platform params args res s0).
Qed.

(** Every load is one of the runs of [LoadRun]. *)
Lemma load_run platform params args ledger :
  exists o s,
    load platform params args ledger = (o, s) /\ LoadRun platform params args ledger o s.
Proof.
  unfold load. rewrite onLoad_phases. unfold bind.
  destruct (request_phase_run platform params args ledger) as (o & s & -> & R).
  destruct o as [res| e |].
  - assert (Hs : timer s = Cleared) by (inversion R; [congruence | reflexivity]).
    destruct (response_phase_run platform params args res s Hs) as (o' & s' & -> & R').
    exists o', s'. split; [reflexivity|]. by eapply LoadGetsResponse.
  - exists (Threw e), s. split; [reflexivity|].
    by apply (LoadStopsEarly platform params args ledger (Threw e) s).
  - exists Pending, s. split; [reflexivity|].
    by apply (LoadStopsEarly platform params args ledger Pending s).
Qed.

Lemma count_app p (a b : list Event) : count p (a ++ b) = (count p a + count p b)%nat.
Proof. unfold count. by rewrite List.filter_app, length_app. Qed.

Lemma count_log_events_0 p params message :
  (forall x, p (EvLog x) = false) -> count p (log_events params message) = 0%nat.
Proof.
  intros H. unfold log_events, count. destruct (params ≫= onLog); simpl; [|done].
  by rewrite H.
Qed.

(* One goal per way a load can go. *)
Ltac load_cases platform params args ledger :=
  let o := fresh "o" in
  let s := fresh "s" in
  let E := fresh "Eload" in
  let R := fresh "Rload" in
  destruct (load_run platform params args ledger) as (o & s & E & R);
  rewrite ?E in *;
  inversion R as [? ? Rreq Hearly | ? ? ? ? Rreq Rres]; subst; clear R;
  [ inversion Rreq; subst; clear Rreq
  | inversion Rreq; subst; clear Rreq; inversion Rres; subst; clear Rres ];
  try match goal with
      | H : forall r, Returned ?x <> Returned r |- _ => by destruct (H x)
      end;
  try match goal with
      | H : forall r, ?o <> Returned r |- _ =>
          is_var o; destruct o as [?res | ?e |]; [by destruct (H res) | | ]
      end;
  simpl in *.

(* Runs that contradict what is known of the log hook or of the network. *)
Ltac absurd_run :=
  try congruence;
  try match goal with
      | H : forall res, Returned ?r <> Returned res |- _ => by destruct (H r)
      | H : ~ ?P, H' : ?P |- _ => by destruct (H H')
      end;
  try (unfold unsettled_before in *;
       match goal with
       | H : network ?p ?r = _, H' : context [network ?p ?r] |- _ => rewrite H in H'
       end; first [congruence | lia]).

(** ** Lower case, separators and white space *)

Lemma lower_char_slash c : Ascii.eqb (Js.lower_char c) "/" = Ascii.eqb c "/".
Proof. by destruct c as [[] [] [] [] [] [] [] []]. Qed.

Lemma lower_char_dot c : Ascii.eqb (Js.lower_char c) "." = Ascii.eqb c ".".
Proof. by destruct c as [[] [] [] [] [] [] [] []]. Qed.

Lemma lower_char_semicolon c : Ascii.eqb (Js.lower_char c) ";" = Ascii.eqb c ";".
Proof. by destruct c as [[] [] [] [] [] [] [] []]. Qed.

Lemma lower_char_space c : Js.is_space (Js.lower_char c) = Js.is_space c.
Proof. by destruct c as [[] [] [] [] [] [] [] []]. Qed.

Lemma lower_char_idem c : Js.lower_char (Js.lower_char c) = Js.lower_char c.
Proof. by destruct c as [[] [] [] [] [] [] [] []]. Qed.

Lemma space_not_semicolon c : Js.is_space c = true -> Ascii.eqb c ";" = false.
Proof. by destruct c as [[] [] [] [] [] [] [] []]. Qed.

Lemma toLowerCase_idem s : Js.toLowerCase (Js.toLowerCase s) = Js.toLowerCase s.
Proof. induction s as [|c s IH]; simpl; [done|]. by rewrite lower_char_idem, IH. Qed.

Lemma split_toLowerCase sep s :
  (forall c, Ascii.eqb (Js.lower_char c) sep = Ascii.eqb c sep) ->
  Js.split sep (Js.toLowerCase s) = Js.toLowerCase <$> Js.split sep s.
Proof.
  intros Hsep. induction s as [|c s IH]; simpl; [done|].
  rewrite Hsep. destruct (Ascii.eqb c sep); simpl; [by rewrite IH|].
  rewrite IH. by destruct (split_nonempty sep s) as (p & ps & ->).
Qed.

Lemma lastIndexOf_from_toLowerCase c s i found :
  (forall a, Ascii.eqb (Js.lower_char a) c = Ascii.eqb a c) ->
  Js.lastIndexOf_from c (Js.toLowerCase s) i found = Js.lastIndexOf_from c s i found.
Proof.
  intros Hc. revert i found. induction s as [|a s IH]; intros i found; simpl; [done|].
  by rewrite Hc, IH.
Qed.

Lemma drop_toLowerCase n s : Js.drop n (Js.toLowerCase s) = Js.toLowerCase (Js.drop n s).
Proof. revert s. induction n as [|n IH]; intros [|c s]; simpl; auto. Qed.

Lemma trimStart_toLowerCase s : Js.trimStart (Js.toLowerCase s) = Js.toLowerCase (Js.trimStart s).
Proof.
  induction s as [|c s IH]; simpl; [done|].
  rewrite lower_char_space. by destruct (Js.is_space c).
Qed.

Lemma trimEnd_toLowerCase s : Js.trimEnd (Js.toLowerCase s) = Js.toLowerCase (Js.trimEnd s).
Proof.
  induction s as [|c s IH]; simpl; [done|].
  rewrite IH, lower_char_space.
  destruct (Js.trimEnd s); simpl; [by destruct (Js.is_space c) | done].
Qed.

Lemma trim_toLowerCase s : Js.trim (Js.toLowerCase s) = Js.toLowerCase (Js.trim s).
Proof. unfold Js.trim. by rewrite trimStart_toLowerCase, trimEnd_toLowerCase. Qed.

Lemma trimEnd_spaces ws : Url.all_chars Js.is_space ws = true -> Js.trimEnd ws = "".
Proof.
  induction ws as [|c ws IH]; simpl; [done|].
  intros [Hc Hws]%andb_true_iff. by rewrite IH, Hc.
Qed.

Lemma trimEnd_app_spaces x ws :
  Url.all_chars Js.is_space ws = true -> Js.trimEnd (x +:+ ws) = Js.trimEnd x.
Proof.
  intros Hws. induction x as [|c x IH].
  - change ("" +:+ ws) with ws. by rewrite trimEnd_spaces.
  - rewrite append_String. simpl. by rewrite IH.
Qed.

Lemma trim_padding ws m ws' :
  Url.all_chars Js.is_space ws = true -> Url.all_chars Js.is_space ws' = true ->
  Js.trim (ws +:+ m +:+ ws') = Js.trim m.
Proof.
  intros Hws Hws'. unfold Js.trim.
  assert (E : forall x, Js.trimStart (ws +:+ x) = Js.trimStart x).
  { intros x. induction ws as [|c ws IH]; [done|].
    rewrite append_String. simpl in *. apply andb_true_iff in Hws as [-> Hws]. auto. }
  rewrite E. clear E Hws ws.
  induction m as [|c m IH].
  - change ("" +:+ ws') with ws'.
    assert (Js.trimStart ws' = "") as ->; [|done].
    clear -Hws'. induction ws' as [|c ws' IH]; simpl in *; [done|].
    apply andb_true_iff in Hws' as [-> Hws']. auto.
  - rewrite append_String. simpl. destruct (Js.is_space c); [exact IH|].
    rewrite <- append_String. by apply trimEnd_app_spaces.
Qed.

Lemma mem_char_app c a b :
  Url.mem_char c (a +:+ b) = Url.mem_char c a || Url.mem_char c b.
Proof.
  induction a as [|x a IH]; [done|]. rewrite append_String. simpl.
  rewrite IH. by rewrite orb_assoc.
Qed.

Lemma spaces_without_semicolon ws :
  Url.all_chars Js.is_space ws = true -> Url.mem_char ";" ws = false.
Proof.
  induction ws as [|c ws IH]; simpl; [done|].
  intros [Hc Hws]%andb_true_iff. by rewrite (space_not_semicolon _ Hc), IH.
Qed.

Lemma cut_without sep x : Url.mem_char sep x = false -> Url.cut sep x = (x, None).
Proof.
  induction x as [|c x IH]; simpl; [done|].
  destruct (Ascii.eqb c sep); simpl; [done|]. intros H. by rewrite IH.
Qed.

Lemma cut_app sep x rest :
  Url.mem_char sep x = false -> Url.cut sep (x +:+ String sep rest) = (x, Some rest).
Proof.
  induction x as [|c x IH].
  - intros _. change ("" +:+ String sep rest) with (String sep rest). simpl.
    by rewrite Ascii.eqb_refl.
  - rewrite append_String. simpl. destruct (Ascii.eqb c sep); simpl; [done|].
    intros H. by rewrite IH.
Qed.

Lemma strip_prefix_Some p s rest : Url.strip_prefix p s = Some rest -> s = p +:+ rest.
Proof.
  revert s. induction p as [|a p IH]; intros s; simpl.
  - by intros [= ->].
  - destruct s as [|b s]; [done|]. destruct (Ascii.eqb_spec a b) as [->|]; [|done].
    intros H. rewrite append_String. f_equal. by apply IH.
Qed.

Lemma filter_http_false P :
  ~ (exists rest, P = "http://" +:+ rest \/ P = "https://" +:+ rest) -> filter_http P = false.
Proof.
  intros H. unfold filter_http.
  destruct (Url.strip_prefix "http://" P) as [r|] eqn:E1.
  { destruct H. exists r. left. by apply strip_prefix_Some. }
  destruct (Url.strip_prefix "https://" P) as [r|] eqn:E2; [|done].
  destruct H. exists r. right. by apply strip_prefix_Some.
Qed.

(** ** Content-type headers: padding, parameters and case *)

Lemma content_type_padding ws m ws' parameters :
  Url.all_chars Js.is_space ws = true -> Url.all_chars Js.is_space ws' = true ->
  Url.mem_char ";" m = false ->
  loaderFromContentType (Some (ws +:+ m +:+ ws' +:+ String ";" parameters))
  = loaderFromContentType (Some m)
  /\ loaderFromContentType (Some (ws +:+ m +:+ ws')) = loaderFromContentType (Some m).
Proof.
  intros Hws Hws' Hm.
  assert (Hall : Url.mem_char ";" (ws +:+ m +:+ ws') = false).
  { by rewrite !mem_char_app, Hm, !spaces_without_semicolon. }
  replace (ws +:+ m +:+ ws' +:+ String ";" parameters)
    with ((ws +:+ m +:+ ws') +:+ String ";" parameters) by (by rewrite !append_assoc).
  unfold loaderFromContentType. rewrite !head_split_cut.
  rewrite (cut_app _ _ _ Hall), (cut_without _ _ Hall), (cut_without _ _ Hm).
  cbn [fst from_option id].
  by rewrite trim_padding.
Qed.

Lemma content_type_lower_case header :
  loaderFromContentType (Some (Js.toLowerCase header)) = loaderFromContentType (Some header).
Proof.
  unfold loaderFromContentType.
  rewrite (split_toLowerCase _ _ lower_char_semicolon).
  destruct (split_nonempty ";" header) as (p & ps & ->). cbn [fmap list_fmap head from_option id].
  by rewrite trim_toLowerCase, toLowerCase_idem.
Qed.

Lemma lower_char_upper_char c : Js.lower_char (upper_char c) = Js.lower_char c.
Proof. destruct c as [[] [] [] [] [] [] [] []]; vm_compute; reflexivity. Qed.

Lemma toLowerCase_upper_case s : Js.toLowerCase (upper_case s) = Js.toLowerCase s.
Proof. induction s as [|c r IH]; simpl; [done|]. by rewrite lower_char_upper_char, IH. Qed.

Lemma content_type_upper_case header :
  loaderFromContentType (Some (upper_case header)) = loaderFromContentType (Some header).
Proof.
  rewrite <- (content_type_lower_case (upper_case header)), toLowerCase_upper_case.
  apply content_type_lower_case.
Qed.

Lemma content_type_table_lookup header :
  loaderFromContentType (Some header) = table_lookup content_type_table (media_type header).
Proof.
  unfold loaderFromContentType, media_type.
  rewrite head_split_cut. cbn [from_option id].
  generalize (Js.toLowerCase (Js.trim (Url.cut ";" header).1)). intros t.
  cbn [table_lookup content_type_table].
  repeat (destruct (String.eqb t _); cbn [orb]; try reflexivity).
Qed.

(** ** Timers on concrete inputs *)

Example timer_delay_in_range : timer_delay 30000 = 30000%N.
Proof. reflexivity. Qed.

Example timer_delay_zero : timer_delay 0 = 1%N.
Proof. reflexivity. Qed.

Example timer_delay_negative : timer_delay (-5) = 1%N.
Proof. reflexivity. Qed.

Example timer_delay_max : timer_delay 2147483647 = 2147483647%N.
Proof. reflexivity. Qed.

Example timer_delay_above_max : timer_delay 2147483648 = 1%N.
Proof. reflexivity. Qed.

(** * The claims *)

(** C1 (the code departs from the claim).  The claim: a bare specifier such
    as ["react"] met inside a module of the namespace is not handled, is not
    rewritten into a URL on the remote host, and never reaches the network.
    The second [onResolve] is registered with the filter [/.*/], so on the
    import of ["react"] from [https://example.com/a.js] the plugin answers
    [https://example.com/react] in its namespace, and the load of that
    module fetches it, whatever the network then does. *)
Theorem bare_import_in_namespace_is_fetched (net : string -> Timed Response) :
  let plugin := httpImportEsbuildPlugin (serve net) None in
  dispatch_resolve (onResolve_hooks plugin) react_import (initial ∅)
  = (Returned (Some {| rr_path := "https://example.com/react"; rr_namespace := "_http_url" |}),
     initial ∅)
  /\ In (EvFetch "https://example.com/react")
        (trace (snd (import_module plugin react_import (initial ∅)))).
Proof.
  intros plugin.
  assert (E : dispatch_resolve (onResolve_hooks plugin) react_import (initial ∅)
              = (Returned (Some {| rr_path := "https://example.com/react";
                                   rr_namespace := "_http_url" |}), initial ∅))
    by (vm_compute; reflexivity).
  split; [exact E|].
  unfold import_module. unfold bind at 1. rewrite E.
  cbn [rr_path rr_namespace]. subst plugin.
  rewrite dispatch_load_in_namespace by reflexivity.
  change (onLoad (serve net) None ?a (initial ∅)) with (load (serve net) None a ∅).
  load_cases (serve net) (@None HttpImportEsbuildPluginParams)
    {| la_path := "https://example.com/react"; la_namespace := "_http_url"; la_with := [] |}
    (∅ : gmap string string);
    unfold log_events, log_returns in *; simpl in *;
    rewrite ?in_app_iff; simpl; tauto.
Qed.

(** C2.  An import path [R] resolved by the handler for modules of the
    namespace, from an importer of canonical path [A]: with no ledger entry
    for [A] the result is the URL resolution of [R] against [A]; with the
    entry [A -> A'] it is the resolution of [R] against [A'].  The host
    gives every import of such a module that is not an absolute http(s) URL
    to this handler.  After [https://cdn/pkg] was served from
    [https://cdn/pkg/index.js], [./util.js] resolves to
    [https://cdn/pkg/util.js]; without the entry it would be
    [https://cdn/util.js]. *)
Theorem relative_import_resolves_against_effective_base :
  (forall platform params args s,
      pathToResolvedUrl s !! ra_importer args = None ->
      onResolve_namespaced platform params args s
      = (resolved_against platform (the_namespace params) (ra_path args) (ra_importer args), s))
  /\ (forall platform params args s A',
      pathToResolvedUrl s !! ra_importer args = Some A' ->
      onResolve_namespaced platform params args s
      = (resolved_against platform (the_namespace params) (ra_path args) A', s))
  /\ (forall platform params args s,
      ra_namespace args = the_namespace params ->
      filter_http (ra_path args) = false ->
      dispatch_resolve (onResolve_hooks (httpImportEsbuildPlugin platform params)) args s
      = onResolve_namespaced platform params args s)
  /\ (let loaded := snd (load (serve cdn) None (load_args "https://cdn/pkg") ∅) in
      pathToResolvedUrl loaded !! "https://cdn/pkg" = Some "https://cdn/pkg/index.js"
      /\ fst (dispatch_resolve (onResolve_hooks (httpImportEsbuildPlugin (serve cdn) None))
                util_import loaded)
         = Returned (Some {| rr_path := "https://cdn/pkg/util.js"; rr_namespace := "_http_url" |})
      /\ fst (dispatch_resolve (onResolve_hooks (httpImportEsbuildPlugin (serve cdn) None))
                util_import (initial ∅))
         = Returned (Some {| rr_path := "https://cdn/util.js"; rr_namespace := "_http_url" |})).
Proof.
  split; [|split; [|split]].
  - intros platform params args s H. rewrite onResolve_namespaced_eq, H. reflexivity.
  - intros platform params args s A' H. rewrite onResolve_namespaced_eq, H. reflexivity.
  - intros platform params args s Hns Hf.
    cbn [httpImportEsbuildPlugin onResolve_hooks dispatch_resolve resolve_namespace
           resolve_filter resolve_callback namespace_matches andb].
    rewrite Hf, Hns, String.eqb_refl, orb_true_r. cbn [andb filter_any].
    unfold bind. rewrite onResolve_namespaced_eq. unfold resolved_against.
    destruct (URL_toString _ _ _); reflexivity.
  - vm_compute. repeat split; reflexivity.
Qed.

Lemma relative_import_witness :
  onResolve_namespaced (serve cdn) None util_import (initial ∅)
  = (resolved_against (serve cdn) (the_namespace None) "./util.js" "https://cdn/pkg", initial ∅).
Proof.
  apply (proj1 relative_import_resolves_against_effective_base (serve cdn) None util_import
           (initial ∅)).
  reflexivity.
Defined.

(** C3 (the code departs from the claim).  The claim: the loader of every
    successful load is the first non-empty result of override, extension
    inference, content-type inference and the default [js], and exactly one
    loader is always produced.  For [https://example.com/a.constructor]
    served with status 200 as [text/css], with no override, the chain as
    claimed gives [css]: [constructor] is no extension of the table.  The
    handler returns its result with the [constructor] member of
    [Object.prototype] for loader, which is no loader at all; likewise for
    [a.__proto__] served as [application/json]. *)
Theorem prototype_member_taken_for_loader :
  fst (load (serve (serving (Some "text/css"))) None
         (load_args "https://example.com/a.constructor") ∅)
  = Returned (Some {| lr_contents := []; lr_loader := VProtoMember "constructor" |})
  /\ accepted_loader {| lr_contents := []; lr_loader := VProtoMember "constructor" |} = None
  /\ first_nonempty
       [ None;
         table_lookup extension_table "constructor";
         table_lookup content_type_table "text/css" ]
       L_js
     = L_css
  /\ fst (load (serve (serving (Some "application/json"))) None
            (load_args "https://example.com/a.__proto__") ∅)
     = Returned (Some {| lr_contents := []; lr_loader := VProtoMember "__proto__" |})
  /\ first_nonempty
       [ None;
         table_lookup extension_table "__proto__";
         table_lookup content_type_table "application/json" ]
       L_js
     = L_json.
Proof. vm_compute. repeat split; reflexivity. Qed.

(** C4 (as claimed, refuted).  The claim: a load whose response is not
    fully available before the deadline is aborted and fails.  Here the
    headers arrive at 1 ms and the body is complete at 1000 ms, under a
    timeout of 10 ms: the timer is cleared as soon as [fetch] settles, the
    body is read without a deadline, nothing is aborted and the load
    succeeds at 1000 ms. *)
Lemma slow_body_outlives_timeout :
  let run := load (serve slow_body) (with_timeout 10) (load_args "https://example.com/a.js") ∅ in
  fully_available_at (serve slow_body) "https://example.com/a.js" = Some 1000%N
  /\ the_deadline (with_timeout 10) = 10%N
  /\ fst run = Returned (Some {| lr_contents := []; lr_loader := VLoader L_js |})
  /\ count is_abort (trace (snd run)) = 0%nat
  /\ clock (snd run) = 1000%N.
Proof. vm_compute. repeat split; reflexivity. Qed.

(** C4 (amended).  For every load whose [fetch] has not settled before the
    deadline -- no response headers and no network error by then -- the
    request is aborted and the load fails with the abort error, the ledger
    untouched.  The deadline is that of the timer: [timeoutMs] milliseconds
    after the load started, and 1 ms when [timeoutMs] is below 1 or above
    2147483647.  On every exit path of the load (success, HTTP failure,
    network failure, timeout, and a load that never completes) the timer is
    not left pending: it was cleared as often as it was set; and nothing is
    aborted unless the fetch was unsettled at the deadline.  So with
    [timeoutMs = 0] a fetch that has settled at once is not aborted and the
    load succeeds, and with [timeoutMs = 2147483648] a fetch that settles at
    50 ms is aborted. *)
Theorem unsettled_fetch_aborts_and_timer_cleared :
  (forall platform params args ledger,
      log_returns params ("Downloading: " +:+ la_path args) ->
      unsettled_before platform (la_path args) (the_deadline params) ->
      let run := load platform params args ledger in
      fst run = Threw AbortError
      /\ In EvAbort (trace (snd run))
      /\ pathToResolvedUrl (snd run) = ledger)
  /\ (forall platform params args ledger,
      let run := load platform params args ledger in
      is_armed (timer (snd run)) = false
      /\ count is_clear_timeout (trace (snd run)) = count is_set_timeout (trace (snd run))
      /\ (count is_abort (trace (snd run)) = 0%nat
          \/ unsettled_before platform (la_path args) (the_deadline params)))
  /\ (forall params,
      the_deadline params
      = if (1 <=? the_timeoutMs params) && (the_timeoutMs params <=? 2147483647)
        then Z.to_N (the_timeoutMs params) else 1%N)
  /\ (let run := load (serve immediate) (with_timeout 0) (load_args "https://example.com/a.js") ∅ in
      fst run = Returned (Some {| lr_contents := []; lr_loader := VLoader L_js |})
      /\ count is_abort (trace (snd run)) = 0%nat)
  /\ (let run := load (serve after_50ms) (with_timeout 2147483648)
                   (load_args "https://example.com/a.js") ∅ in
      fst run = Threw AbortError
      /\ In EvAbort (trace (snd run))
      /\ clock (snd run) = 1%N).
Proof.
  split; [|split; [|split; [reflexivity | split; vm_compute; repeat split; tauto]]].
  - intros platform params args ledger Hlog Hun run. subst run.
    load_cases platform params args ledger; absurd_run.
    repeat split; try done. apply in_or_app. right. simpl. tauto.
  - intros platform params args ledger run. subst run.
    load_cases platform params args ledger;
      (split; [reflexivity | split]);
      rewrite ?count_app;
      rewrite ?(count_log_events_0 is_clear_timeout), ?(count_log_events_0 is_set_timeout),
        ?(count_log_events_0 is_abort) by done;
      unfold count, resolver_events; try destruct (the_loaderResolver params); simpl; auto.
Qed.

Lemma unsettled_fetch_witness :
  let run := load (serve (fun _ => Never)) (with_timeout 10) (load_args "https://example.com/a.js") ∅ in
  fst run = Threw AbortError
  /\ In EvAbort (trace (snd run))
  /\ pathToResolvedUrl (snd run) = ∅.
Proof.
  apply (proj1 unsettled_fetch_aborts_and_timer_cleared (serve (fun _ => Never)) (with_timeout 10)
           (load_args "https://example.com/a.js") ∅).
  - exact I.
  - exact I.
Defined.

(** C5.  For every load whose response, received before the timer's
    deadline, has a status outside 200..299, the load fails with the error
    [GET <path> failed: status <status>], whose message contains the
    request path and the decimal status; the handler throws (it returns no
    result for the host to go on with), the request was issued once and not
    again, and the ledger is untouched. *)
Theorem non_success_status_fails_load platform params args ledger t res :
  log_returns params ("Downloading: " +:+ la_path args) ->
  network platform (la_path args) = FulfilledAt t res ->
  (t < the_deadline params)%N ->
  (status res < 200 \/ 299 < status res)%nat ->
  let run := load platform params args ledger in
  let message := "GET " +:+ la_path args +:+ " failed: status " +:+ Js.show_nat (status res) in
  fst run = Threw (Error message)
  /\ Js.includes message (la_path args)
  /\ Js.includes message (Js.show_nat (status res))
  /\ count is_fetch (trace (snd run)) = 1%nat
  /\ pathToResolvedUrl (snd run) = ledger.
Proof.
  intros Hlog Hnet Ht Hst run message. subst run.
  assert (I1 : Js.includes message (la_path args)) by apply includes_infix.
  assert (I2 : Js.includes message (Js.show_nat (status res))).
  { unfold message. rewrite <- !append_assoc. apply includes_suffix. }
  apply ok_false_iff in Hst.
  load_cases platform params args ledger; absurd_run;
    match goal with
    | H : network _ _ = FulfilledAt _ ?r |- _ =>
        assert (r = res) by congruence; subst r
    end; absurd_run.
  repeat split; try done.
  rewrite count_app, count_log_events_0 by done. reflexivity.
Qed.

Lemma non_success_status_witness :
  fst (load (serve not_found) None (load_args "https://example.com/a.js") ∅)
  = Threw (Error "GET https://example.com/a.js failed: status 404").
Proof.
  apply (non_success_status_fails_load (serve not_found) None
           (load_args "https://example.com/a.js") ∅ 2
           (response 404 "" (Some "text/plain") (FulfilledAt 3 []))).
  - exact I.
  - reflexivity.
  - reflexivity.
  - right. simpl. lia.
Defined.

(** C6 (as claimed, refuted).  The claim: the ledger entry is written after
    the response is fully received and never on a failed load.  Here the
    headers arrive with status 200 and the connection drops while the body
    is read: the load fails, and the ledger, empty before, holds the entry
    of the path, written before the body was asked for.  Likewise when the
    body arrives and the caller's [loaderResolver] throws. *)
Lemma failed_load_leaves_ledger_entry :
  let run := load (serve drops_body) None (load_args "https://example.com/a.js") ∅ in
  let run' := load (serve (serving None)) throwing_resolver
                (load_args "https://example.com/a.js") ∅ in
  fst run = Threw (Thrown "terminated")
  /\ (∅ : gmap string string) !! "https://example.com/a.js" = None
  /\ pathToResolvedUrl (snd run) !! "https://example.com/a.js" = Some "https://example.com/a.js"
  /\ trace (snd run)
     = [EvSetTimeout 30000; EvFetch "https://example.com/a.js"; EvClearTimeout;
        EvLedgerSet "https://example.com/a.js" "https://example.com/a.js"; EvArrayBuffer]
  /\ fst run' = Threw (Thrown "unsupported")
  /\ pathToResolvedUrl (snd run') !! "https://example.com/a.js" = Some "https://example.com/a.js".
Proof. vm_compute. repeat split; reflexivity. Qed.

(** C6 (amended).  The ledger entry of a canonical path is written exactly
    once per load whose fetch yields, before the deadline, a response with a
    success status: after the fetch and before the body is read, whatever
    becomes of the load afterwards; the value is the response's final URL,
    or the requested path when the transport gives none.  A load with no
    such response (log hook failure, network failure, timeout, non-success
    status) never writes the ledger. *)
Theorem ledger_written_once_response_accepted :
  (forall platform params args ledger res,
      response_accepted platform params args res ->
      let run := load platform params args ledger in
      let effective := if String.eqb (url res) "" then la_path args else url res in
      pathToResolvedUrl (snd run) = <[la_path args := effective]> ledger
      /\ count is_ledger_set (trace (snd run)) = 1%nat
      /\ exists before after,
           trace (snd run)
           = before ++ EvLedgerSet (la_path args) effective :: EvArrayBuffer :: after
           /\ In (EvFetch (la_path args)) before
           /\ count is_array_buffer before = 0%nat)
  /\ (forall platform params args ledger,
      (forall res, ~ response_accepted platform params args res) ->
      let run := load platform params args ledger in
      pathToResolvedUrl (snd run) = ledger
      /\ count is_ledger_set (trace (snd run)) = 0%nat).
Proof.
  split.
  - intros platform params args ledger res (Hlog & (t & Hnet & Ht) & Hok) run effective.
    subst run effective. fold (effective_url res (la_path args)).
    load_cases platform params args ledger; absurd_run;
      match goal with
      | H : network _ _ = FulfilledAt _ ?r |- _ => assert (r = res) by congruence; subst r
      end; absurd_run;
      (split; [reflexivity | split;
        [ rewrite !count_app, count_log_events_0 by done;
          unfold count, resolver_events; try destruct (the_loaderResolver params); reflexivity
        | eexists _, _; split; [reflexivity | split;
          [ apply in_or_app; right; simpl; tauto
          | rewrite count_app, count_log_events_0 by done; reflexivity ] ] ] ]).
  - intros platform params args ledger Hno run. subst run.
    load_cases platform params args ledger;
      try (split; [reflexivity |];
           rewrite ?count_app, ?count_log_events_0 by done; reflexivity);
      exfalso;
      match goal with
      | H : network _ _ = FulfilledAt ?t ?r |- _ => apply (Hno r)
      end; (split; [done | split; [eauto | done]]).
Qed.

Lemma ledger_written_witness :
  pathToResolvedUrl (snd (load (serve cdn) None (load_args "https://cdn/pkg") ∅))
  = <["https://cdn/pkg" := "https://cdn/pkg/index.js"]> ∅.
Proof.
  apply (proj1 ledger_written_once_response_accepted (serve cdn) None (load_args "https://cdn/pkg") ∅
           (response 200 "https://cdn/pkg/index.js" (Some "application/javascript")
              (FulfilledAt 4 []))).
  split; [exact I | split; [| reflexivity]].
  exists 3%N. split; [reflexivity | reflexivity].
Defined.

(** C7 (the code departs from the claim).  The claim: an extension outside
    the fixed table yields no result.  [constructor] and [__proto__] are
    not in the table, yet [EXT_TO_LOADER[ext]] finds them on
    [Object.prototype]: extension inference then yields a value that is not
    a loader string, and it wins over content-type inference, here over
    [text/css]. *)
Theorem extension_outside_table_yields_a_result :
  table_lookup extension_table "constructor" = None
  /\ loaderFromPathname "/a.constructor" = VProtoMember "constructor"
  /\ loaderFromPathname "/a.__proto__" = VProtoMember "__proto__"
  /\ fst (load (serve (serving (Some "text/css"))) None
            (load_args "https://example.com/a.constructor") ∅)
     = Returned (Some {| lr_contents := []; lr_loader := VProtoMember "constructor" |})
  /\ loaderFromContentType (Some "text/css") = Some L_css.
Proof. vm_compute. repeat split; reflexivity. Qed.

(** C8.  Content-type inference: an absent header yields nothing.  A
    header is cut at its first [;], trimmed, put in lower case and looked up
    in the fixed table, which holds exactly the eight listed media types;
    anything else yields nothing.  So white space around the media type and
    parameters after a [;] change nothing, nor does the case of the header,
    and each media type of the table yields its loader.  A path without
    extension served as [application/typescript; charset=utf-8] loads as
    [ts]. *)
Theorem content_type_inference_table :
  loaderFromContentType None = None
  /\ (forall ws m ws' parameters,
      Url.all_chars Js.is_space ws = true -> Url.all_chars Js.is_space ws' = true ->
      Url.mem_char ";" m = false ->
      loaderFromContentType (Some (ws +:+ m +:+ ws' +:+ String ";" parameters))
      = loaderFromContentType (Some m)
      /\ loaderFromContentType (Some (ws +:+ m +:+ ws')) = loaderFromContentType (Some m))
  /\ (forall header,
      loaderFromContentType (Some (upper_case header)) = loaderFromContentType (Some header)
      /\ loaderFromContentType (Some (Js.toLowerCase header)) = loaderFromContentType (Some header))
  /\ (forall m l, In (m, l) content_type_table -> loaderFromContentType (Some m) = Some l)
  /\ (forall header,
      loaderFromContentType (Some header) = table_lookup content_type_table (media_type header))
  /\ (forall header l,
      loaderFromContentType (Some header) = Some l <-> In (media_type header, l) content_type_table)
  /\ loaderFromContentType (Some "  Application/TypeScript ; charset=utf-8") = Some L_ts
  /\ loaderFromContentType (Some (String "009" "text/css ")) = Some L_css
  /\ loaderFromContentType (Some "TEXT/PLAIN;x") = Some L_text
  /\ loaderFromContentType (Some "text/html") = None
  /\ loaderFromContentType (Some "text/ css") = None
  /\ fst (load (serve (serving (Some "application/typescript; charset=utf-8"))) None
            (load_args "https://example.com/mod") ∅)
     = Returned (Some {| lr_contents := []; lr_loader := VLoader L_ts |}).
Proof.
  split; [reflexivity|].
  split; [apply content_type_padding|].
  split; [intros header; split; [apply content_type_upper_case | apply content_type_lower_case]|].
  split.
  { intros m l H. cbn [In content_type_table] in H.
    repeat (destruct H as [[= <- <-] | H]; [vm_compute; reflexivity|]); destruct H. }
  split; [apply content_type_table_lookup|].
  split.
  { intros header l. rewrite content_type_table_lookup. split; [apply table_lookup_In|].
    generalize (media_type header). intros t.
    cbn [In content_type_table].
    intros H; repeat (destruct H as [[= <- <-] | H]; [reflexivity|]); destruct H. }
  repeat split; vm_compute; reflexivity.
Qed.

Lemma content_type_inference_witness :
  loaderFromContentType
    (Some (String "009" " " +:+ "Text/CSS" +:+ "  " +:+ String ";" " charset=utf-8"))
  = loaderFromContentType (Some "Text/CSS").
Proof.
  refine (proj1 (proj1 (proj2 content_type_inference_table)
                   (String "009" " ") "Text/CSS" "  " " charset=utf-8" _ _ _));
    reflexivity.
Defined.

(** C9.  For every import path [P] that begins with [http://] or
    [https://], whatever the importer and its namespace, resolution by the
    plugin yields [P] unchanged, in the plugin's namespace. *)
Theorem absolute_import_resolves_to_itself platform params (args : OnResolveArgs) (s : State) :
  (exists rest, ra_path args = "http://" +:+ rest \/ ra_path args = "https://" +:+ rest) ->
  dispatch_resolve (onResolve_hooks (httpImportEsbuildPlugin platform params)) args s
  = (Returned (Some {| rr_path := ra_path args; rr_namespace := the_namespace params |}), s).
Proof.
  intros H. apply filter_http_prefix in H.
  simpl. rewrite H. reflexivity.
Qed.

Lemma absolute_import_witness :
  dispatch_resolve (onResolve_hooks (httpImportEsbuildPlugin (serve (fun _ => Never)) None))
    {| ra_path := "https://example.com/b.js"; ra_importer := "https://example.com/a.js";
       ra_namespace := "_http_url" |} (initial ∅)
  = (Returned (Some {| rr_path := "https://example.com/b.js"; rr_namespace := "_http_url" |}),
     initial ∅).
Proof.
  apply (absolute_import_resolves_to_itself (serve (fun _ => Never)) None
           {| ra_path := "https://example.com/b.js"; ra_importer := "https://example.com/a.js";
              ra_namespace := "_http_url" |}).
  exists "example.com/b.js". right. reflexivity.
Defined.

(** C10.  For every invocation of the load handler with an [onLog] hook
    configured, the first event of the invocation is the call of the hook
    with [Downloading: <path>], a message containing the canonical path,
    and no other call of the hook follows: the hook is called exactly once,
    before any network request, whether the load then succeeds or fails
    with a timeout, a network error or a non-success status. *)
Theorem onLog_once_before_fetch platform params args ledger f :
  params ≫= onLog = Some f ->
  let message := "Downloading: " +:+ la_path args in
  exists rest,
    trace (snd (load platform params args ledger)) = EvLog message :: rest
    /\ count is_log rest = 0%nat
    /\ Js.includes message (la_path args).
Proof.
  intros Hf message.
  assert (E : log_events params message = [EvLog message])
    by (unfold log_events; by rewrite Hf).
  assert (I : Js.includes message (la_path args)) by apply includes_suffix.
  load_cases platform params args ledger; fold message; rewrite E;
    (eexists; split; [reflexivity | split; [| exact I]]);
    unfold count, resolver_events; try destruct (the_loaderResolver params); reflexivity.
Qed.

Lemma onLog_once_witness :
  exists rest,
    trace (snd (load (serve (fun _ => Never)) logging (load_args "https://example.com/a.js") ∅))
    = EvLog ("Downloading: " +:+ "https://example.com/a.js") :: rest
    /\ count is_log rest = 0%nat
    /\ Js.includes ("Downloading: " +:+ "https://example.com/a.js") "https://example.com/a.js".
Proof.
  apply (onLog_once_before_fetch (serve (fun _ => Never)) logging
           (load_args "https://example.com/a.js") ∅ (fun _ => HookReturns tt)).
  reflexivity.
Defined.

(** * Further properties *)

(** ** Extension inference, [loaderFromPathname] *)

(** X1.  Extension inference does not depend on the case of the pathname:
    the pathname put in lower case gives the same result. *)
Theorem loaderFromPathname_ignores_case pathname :
  loaderFromPathname (Js.toLowerCase pathname) = loaderFromPathname pathname.
Proof.
  unfold loaderFromPathname, Js.pop.
  rewrite (split_toLowerCase _ _ lower_char_slash), fmap_last.
  destruct (last (Js.split "/" pathname)) as [seg|]; simpl; [|done].
  unfold Js.lastIndexOf, Js.slice.
  rewrite (lastIndexOf_from_toLowerCase _ _ _ _ lower_char_dot).
  destruct (Js.lastIndexOf_from "." seg 0 (-1) <=? 0)%Z; [done|].
  by rewrite drop_toLowerCase, toLowerCase_idem.
Qed.

(** X2.  Extension inference looks at the last path segment only: whatever
    precedes the last slash, dots included, changes nothing. *)
Theorem loaderFromPathname_last_segment_only dir seg :
  Url.mem_char "/" seg = false ->
  loaderFromPathname (dir +:+ String "/" seg) = loaderFromPathname seg.
Proof.
  intros H. unfold loaderFromPathname.
  rewrite (last_segment _ _ H). unfold Js.pop. by rewrite (split_without _ _ H).
Qed.

Lemma loaderFromPathname_last_segment_witness :
  loaderFromPathname ("/v1.2.ts/lib.css" +:+ String "/" "mod") = loaderFromPathname "mod".
Proof.
  apply (loaderFromPathname_last_segment_only "/v1.2.ts/lib.css" "mod").
  reflexivity.
Defined.

(** X3.  A last segment with no usable extension yields nothing: no dot at
    all (the empty segment of a path ending in a slash included), a dot in
    first position only (a dotfile), or nothing after the last dot. *)
Theorem loaderFromPathname_without_extension dir seg :
  Url.mem_char "/" seg = false ->
  (Url.mem_char "." seg = false
   \/ (exists rest, seg = String "." rest /\ Url.mem_char "." rest = false)
   \/ (exists stem, seg = stem +:+ ".")) ->
  loaderFromPathname (dir +:+ String "/" seg) = VUndefined.
Proof.
  intros Hseg [H | [H | (stem & ->)]].
  - apply loaderFromPathname_no_extension; auto.
  - apply loaderFromPathname_no_extension; auto.
  - destruct stem as [|c stem].
    + apply loaderFromPathname_no_extension; [done|]. right. by exists "".
    + rewrite mem_char_app in Hseg. apply orb_false_iff in Hseg as [Hstem _].
      by rewrite loaderFromPathname_extension.
Qed.

Lemma loaderFromPathname_without_extension_witness :
  loaderFromPathname ("/pkg" +:+ String "/" ".json") = VUndefined.
Proof.
  apply (loaderFromPathname_without_extension "/pkg" ".json").
  - reflexivity.
  - right. left. exists "json". split; reflexivity.
Defined.

(** X4.  On a last segment [stem.ext] with a non-empty stem, extension
    inference answers by the table for the extension in lower case,
    provided that extension is not a name of [Object.prototype]: the
    table's loader when it lists the extension, nothing otherwise. *)
Theorem loaderFromPathname_follows_table dir stem ext :
  Url.mem_char "/" stem = false -> Url.mem_char "/" ext = false ->
  Url.mem_char "." ext = false -> stem <> "" ->
  Js.on_Object_prototype (Js.toLowerCase ext) = false ->
  loaderFromPathname (dir +:+ String "/" (stem +:+ String "." ext))
  = of_option (table_lookup extension_table (Js.toLowerCase ext)).
Proof.
  intros H1 H2 H3 H4 H5.
  rewrite loaderFromPathname_extension by done.
  rewrite get_property_table, H5.
  by destruct (table_lookup extension_table (Js.toLowerCase ext)).
Qed.

Lemma loaderFromPathname_follows_table_witness :
  loaderFromPathname ("/a.b" +:+ String "/" ("index.min" +:+ String "." "MJS"))
  = of_option (table_lookup extension_table (Js.toLowerCase "MJS")).
Proof.
  apply (loaderFromPathname_follows_table "/a.b" "index.min" "MJS"); try reflexivity.
  discriminate.
Defined.

Lemma extension_loader_listed pathname l :
  loaderFromPathname pathname = VLoader l -> In l inferable_by_extension.
Proof.
  unfold loaderFromPathname.
  destruct (_ <=? 0)%Z; [done|].
  rewrite get_property_table.
  destruct (table_lookup extension_table _) as [l'|] eqn:E.
  - intros [= ->]. apply table_lookup_In in E. simpl in E.
    repeat (destruct E as [[= _ <-] | E]; [simpl; tauto|]). destruct E.
  - by destruct (Js.on_Object_prototype _).
Qed.

(** X5.  When extension inference yields a loader, it is one of [js], [ts],
    [jsx], [tsx], [json], [css], [text]. *)
Theorem loaderFromPathname_range pathname l :
  loaderFromPathname pathname = VLoader l -> In l inferable_by_extension.
Proof. apply extension_loader_listed. Qed.

Lemma loaderFromPathname_range_witness : In L_tsx inferable_by_extension.
Proof.
  apply (loaderFromPathname_range "/components/App.tsx" L_tsx).
  vm_compute. reflexivity.
Defined.

(** ** Content-type inference, [loaderFromContentType] *)

Lemma content_type_loader_listed header l :
  loaderFromContentType header = Some l -> In l inferable_by_content_type.
Proof.
  destruct header as [h|]; [|done]. unfold loaderFromContentType.
  repeat match goal with
         | |- context [if ?b then _ else _] => destruct b
         end; intros [= <-]; simpl; tauto.
Qed.

(** X6.  Content-type inference never yields anything but [js], [ts],
    [json], [css] or [text]; [jsx] and [tsx] cannot come from a header. *)
Theorem loaderFromContentType_range header l :
  loaderFromContentType header = Some l -> In l inferable_by_content_type.
Proof. apply content_type_loader_listed. Qed.

Lemma loaderFromContentType_range_witness : In L_json inferable_by_content_type.
Proof.
  apply (loaderFromContentType_range (Some "text/json") L_json).
  vm_compute. reflexivity.
Defined.

(** X7.  Content-type inference sees neither the parameters after the first
    semicolon nor white space around the media type. *)
Theorem loaderFromContentType_ignores_parameters_and_padding ws m ws' parameters :
  Url.all_chars Js.is_space ws = true -> Url.all_chars Js.is_space ws' = true ->
  Url.mem_char ";" m = false ->
  loaderFromContentType (Some (ws +:+ m +:+ ws' +:+ String ";" parameters))
  = loaderFromContentType (Some m)
  /\ loaderFromContentType (Some (ws +:+ m +:+ ws')) = loaderFromContentType (Some m).
Proof. apply content_type_padding. Qed.

Lemma loaderFromContentType_ignores_parameters_witness :
  loaderFromContentType (Some (" " +:+ "text/css" +:+ "  " +:+ String ";" " charset=utf-8"))
  = loaderFromContentType (Some "text/css").
Proof.
  apply (loaderFromContentType_ignores_parameters_and_padding " " "text/css" "  "
           " charset=utf-8"); reflexivity.
Defined.

(** X8.  Content-type inference does not depend on the case of the header. *)
Theorem loaderFromContentType_ignores_case header :
  loaderFromContentType (Some (Js.toLowerCase header)) = loaderFromContentType (Some header).
Proof. apply content_type_lower_case. Qed.

(** ** Resolution *)

(** X9.  Resolution only reads: whatever the import and whether it resolves,
    falls through or throws, the state -- ledger, timer, clock and trace,
    hence the network -- is left as it was. *)
Theorem resolution_leaves_state platform params args s :
  snd (dispatch_resolve (onResolve_hooks (httpImportEsbuildPlugin platform params)) args s) = s.
Proof.
  cbn [httpImportEsbuildPlugin onResolve_hooks dispatch_resolve resolve_namespace
         resolve_filter resolve_callback namespace_matches andb].
  destruct (filter_http (ra_path args)); [reflexivity|].
  destruct (_ || _); cbn [andb filter_any]; [|reflexivity].
  unfold bind. rewrite onResolve_namespaced_eq. unfold resolved_against.
  destruct (URL_toString _ _ _); reflexivity.
Qed.

(** X10.  When the plugin's namespace is not the empty string, an import
    that is no absolute http(s) URL, written in a module of another
    namespace, is not taken by the plugin: both hooks pass, and the host
    resolves it by its own rules. *)
Theorem foreign_import_falls_through platform params args s :
  the_namespace params <> "" ->
  ra_namespace args <> the_namespace params ->
  ~ (exists rest, ra_path args = "http://" +:+ rest \/ ra_path args = "https://" +:+ rest) ->
  dispatch_resolve (onResolve_hooks (httpImportEsbuildPlugin platform params)) args s
  = (Returned None, s).
Proof.
  intros Hne Hns Hpath.
  cbn [httpImportEsbuildPlugin onResolve_hooks dispatch_resolve resolve_namespace
         resolve_filter resolve_callback namespace_matches andb].
  rewrite (filter_http_false _ Hpath).
  destruct (String.eqb_spec (the_namespace params) ""); [congruence|].
  destruct (String.eqb_spec (the_namespace params) (ra_namespace args)); [congruence|].
  reflexivity.
Qed.

Lemma foreign_import_witness :
  dispatch_resolve (onResolve_hooks (httpImportEsbuildPlugin (serve (fun _ => Never)) None))
    (import_from "react" "/home/app/main.js" "file") (initial ∅)
  = (Returned None, initial ∅).
Proof.
  apply (foreign_import_falls_through (serve (fun _ => Never)) None
           (import_from "react" "/home/app/main.js" "file")).
  - discriminate.
  - discriminate.
  - intros (rest & [H | H]); discriminate.
Defined.



(** X12.  When the plugin's namespace is not the empty string, a module of
    another namespace is never loaded by the plugin: the load hook passes,
    nothing is logged, no timer is set, nothing is fetched and the ledger
    is untouched. *)
Theorem foreign_module_is_not_loaded platform params args s :
  the_namespace params <> "" ->
  la_namespace args <> the_namespace params ->
  dispatch_load (onLoad_hooks (httpImportEsbuildPlugin platform params)) args s
  = (Returned None, s).
Proof.
  intros Hne Hns.
  cbn [httpImportEsbuildPlugin onLoad_hooks dispatch_load load_namespace load_filter
         load_callback namespace_matches].
  destruct (String.eqb_spec (the_namespace params) ""); [congruence|].
  destruct (String.eqb_spec (the_namespace params) (la_namespace args)); [congruence|].
  reflexivity.
Qed.

Lemma foreign_module_witness :
  dispatch_load (onLoad_hooks (httpImportEsbuildPlugin (serve (serving None)) None))
    {| la_path := "/home/app/main.js"; la_namespace := "file"; la_with := [] |} (initial ∅)
  = (Returned None, initial ∅).
Proof.
  apply (foreign_module_is_not_loaded (serve (serving None)) None
           {| la_path := "/home/app/main.js"; la_namespace := "file"; la_with := [] |}).
  - discriminate.
  - discriminate.
Defined.

(** ** The ledger across load and resolution *)

(** X13.  Load then resolve: once a module was loaded from a response with a
    success status received before the timer's deadline, every import
    written in it that is no absolute http(s) URL is resolved by the plugin
    against the URL that response came from (its final URL, or the
    requested path when the response has none), whatever the ledger held
    before.  (An absolute http(s) URL resolves to itself.) *)
Theorem import_after_load_resolves_against_final_url platform params args ledger res R :
  response_accepted platform params args res ->
  ~ (exists rest, R = "http://" +:+ rest \/ R = "https://" +:+ rest) ->
  let loaded := snd (load platform params args ledger) in
  dispatch_resolve (onResolve_hooks (httpImportEsbuildPlugin platform params))
    (import_from R (la_path args) (the_namespace params)) loaded
  = (resolved_against platform (the_namespace params) R (effective_url res (la_path args)),
     loaded).
Proof.
  intros (Hlog & (t & Hnet & Ht) & Hok) HR loaded.
  cbn [httpImportEsbuildPlugin onResolve_hooks dispatch_resolve resolve_namespace
         resolve_filter resolve_callback namespace_matches andb import_from
         ra_path ra_namespace].
  rewrite (filter_http_false _ HR), String.eqb_refl, orb_true_r. cbn [andb filter_any].
  unfold bind. rewrite onResolve_namespaced_eq. cbn [import_from ra_path ra_importer].
  assert (Hbase : default (la_path args) (pathToResolvedUrl loaded !! la_path args)
                  = effective_url res (la_path args)).
  { subst loaded.
    load_cases platform params args ledger; absurd_run;
      match goal with
      | H : network _ _ = FulfilledAt _ ?r |- _ => assert (r = res) by congruence; subst r
      end; absurd_run; by rewrite lookup_insert_eq. }
  rewrite Hbase. unfold resolved_against.
  destruct (URL_toString _ _ _); reflexivity.
Qed.

Lemma import_after_load_witness :
  let loaded := snd (load (serve cdn) None (load_args "https://cdn/pkg") ∅) in
  dispatch_resolve (onResolve_hooks (httpImportEsbuildPlugin (serve cdn) None))
    (import_from "./a.js" "https://cdn/pkg" (the_namespace None)) loaded
  = (resolved_against (serve cdn) (the_namespace None) "./a.js"
       (effective_url (response 200 "https://cdn/pkg/index.js" (Some "application/javascript")
                         (FulfilledAt 4 []))
          "https://cdn/pkg"),
     loaded).
Proof.
  apply (import_after_load_resolves_against_final_url (serve cdn) None
           (load_args "https://cdn/pkg") ∅
           (response 200 "https://cdn/pkg/index.js" (Some "application/javascript")
              (FulfilledAt 4 []))).
  - split; [exact I | split; [| reflexivity]].
    exists 3%N. split; reflexivity.
  - intros (rest & [H | H]); discriminate.
Defined.

(** X14.  A load touches no ledger entry but that of its own path: every
    other requested path keeps the entry, or the absence of entry, it had,
    however the load ends. *)
Theorem load_keeps_other_entries platform params args ledger k :
  k <> la_path args ->
  pathToResolvedUrl (snd (load platform params args ledger)) !! k = ledger !! k.
Proof.
  intros Hk.
  load_cases platform params args ledger; try reflexivity; by rewrite lookup_insert_ne.
Qed.

Lemma load_keeps_other_entries_witness :
  pathToResolvedUrl
    (snd (load (serve (serving None)) None (load_args "https://example.com/b.js")
            {[ "https://cdn/pkg" := "https://cdn/pkg/index.js" ]}))
    !! "https://cdn/pkg"
  = ({[ "https://cdn/pkg" := "https://cdn/pkg/index.js" ]} : gmap string string)
      !! "https://cdn/pkg".
Proof.
  apply (load_keeps_other_entries (serve (serving None)) None
           (load_args "https://example.com/b.js")).
  discriminate.
Defined.

(** X15.  The ledger never holds an empty URL: if it holds none and the
    loaded path is not empty, it holds none after the load.  So the base
    that the resolver reads from the ledger is never the empty string. *)
Theorem ledger_never_holds_empty_url platform params args ledger :
  (forall k v, ledger !! k = Some v -> v <> "") ->
  la_path args <> "" ->
  forall k v,
    pathToResolvedUrl (snd (load platform params args ledger)) !! k = Some v -> v <> "".
Proof.
  intros Hledger Hpath k v.
  assert (Heff : forall res, effective_url res (la_path args) <> "").
  { intros res. unfold effective_url.
    destruct (String.eqb_spec (url res) ""); [done | done]. }
  load_cases platform params args ledger; try apply Hledger;
    (destruct (decide (k = la_path args)) as [->|Hne];
     [ rewrite lookup_insert_eq; intros [= <-]; apply Heff
     | rewrite lookup_insert_ne by done; apply Hledger ]).
Qed.

Lemma ledger_never_holds_empty_url_witness : "https://example.com/b.js" <> "".
Proof.
  apply (ledger_never_holds_empty_url (serve (serving None)) None
           (load_args "https://example.com/b.js") ∅
           ltac:(intros k v H; by rewrite lookup_empty in H) ltac:(discriminate)
           "https://example.com/b.js" "https://example.com/b.js").
  vm_compute. reflexivity.
Defined.

(** ** The load handler *)

(** X16.  A load issues at most one network request, and only for its own
    path: exactly one when the log hook returns (or there is none), none
    when the hook does not return. *)
Theorem load_fetches_its_path_once platform params args ledger :
  let tr := trace (snd (load platform params args ledger)) in
  (forall request, In (EvFetch request) tr -> request = la_path args)
  /\ (log_returns params ("Downloading: " +:+ la_path args) -> count is_fetch tr = 1%nat)
  /\ (~ log_returns params ("Downloading: " +:+ la_path args) -> count is_fetch tr = 0%nat).
Proof.
  intros tr. subst tr.
  load_cases platform params args ledger;
    (split; [| split]); intros; absurd_run;
    try (rewrite ?count_app, ?count_log_events_0 by done;
         unfold count, resolver_events; try destruct (the_loaderResolver params); reflexivity);
    unfold log_events, resolver_events in *;
    destruct (params ≫= onLog); try destruct (the_loaderResolver params);
    simpl in *; intuition congruence.
Qed.

Lemma load_fetches_its_path_once_witness :
  count is_fetch
    (trace (snd (load (serve not_found) logging (load_args "https://example.com/a.js") ∅)))
  = 1%nat.
Proof.
  apply (load_fetches_its_path_once (serve not_found) logging
           (load_args "https://example.com/a.js") ∅).
  reflexivity.
Defined.

(** X17.  A log hook that throws ends the load there, with the hook's error:
    no timer is set, nothing is fetched, the ledger is untouched. *)
Theorem throwing_log_hook_stops_the_load platform params args ledger f e :
  params ≫= onLog = Some f ->
  f ("Downloading: " +:+ la_path args) = HookThrows e ->
  load platform params args ledger
  = (Threw e,
     {| pathToResolvedUrl := ledger; timer := NoTimer; clock := 0;
        trace := [EvLog ("Downloading: " +:+ la_path args)] |}).
Proof.
  intros Hf He. unfold load, onLoad, log, bind, emit, call_hook, throw, initial.
  rewrite Hf, He. reflexivity.
Qed.

Lemma throwing_log_hook_witness :
  load (serve (serving None)) throwing_log (load_args "https://example.com/a.js") ∅
  = (Threw (Thrown "closed"),
     {| pathToResolvedUrl := ∅; timer := NoTimer; clock := 0;
        trace := [EvLog ("Downloading: " +:+ "https://example.com/a.js")] |}).
Proof.
  apply (throwing_log_hook_stops_the_load (serve (serving None)) throwing_log
           (load_args "https://example.com/a.js") ∅ (fun _ => HookThrows (Thrown "closed"))).
  - reflexivity.
  - reflexivity.
Defined.

(** X18.  A network failure of the fetch before the timer's deadline is
    the load's failure, with the same error; the timer is cleared, nothing
    was aborted and the ledger is untouched. *)
Theorem network_error_is_rethrown platform params args ledger t e :
  log_returns params ("Downloading: " +:+ la_path args) ->
  network platform (la_path args) = RejectedAt t e ->
  (t < the_deadline params)%N ->
  let run := load platform params args ledger in
  fst run = Threw e
  /\ timer (snd run) = Cleared
  /\ count is_abort (trace (snd run)) = 0%nat
  /\ pathToResolvedUrl (snd run) = ledger.
Proof.
  intros Hlog Hnet Ht run. subst run.
  load_cases platform params args ledger; absurd_run.
  repeat split; try congruence.
  rewrite count_app, count_log_events_0 by done. reflexivity.
Qed.

Lemma network_error_witness :
  fst (load (serve refuses) None (load_args "https://example.com/a.js") ∅)
  = Threw (Thrown "ECONNREFUSED").
Proof.
  apply (network_error_is_rethrown (serve refuses) None (load_args "https://example.com/a.js")
           ∅ 5 (Thrown "ECONNREFUSED")).
  - exact I.
  - reflexivity.
  - reflexivity.
Defined.

(** X19.  After a response with a success status, a failure of the body
    read, or an override that throws once the body is there, is the load's
    failure with the same error. *)
Theorem late_errors_are_rethrown platform params args ledger res e :
  response_accepted platform params args res ->
  ((exists tb, body res = RejectedAt tb e)
   \/ (exists tb bytes, body res = FulfilledAt tb bytes /\ override params args res = HookThrows e)) ->
  fst (load platform params args ledger) = Threw e.
Proof.
  intros (Hlog & (t & Hnet & Ht) & Hok) Hlate.
  load_cases platform params args ledger; absurd_run;
    match goal with
    | H : network _ _ = FulfilledAt _ ?r |- _ => assert (r = res) by congruence; subst r
    end; absurd_run;
    destruct Hlate as [(tb' & Hb) | (tb' & bytes' & Hb & Ho)]; congruence.
Qed.

Lemma late_errors_witness :
  fst (load (serve (serving None)) throwing_resolver (load_args "https://example.com/a.js") ∅)
  = Threw (Thrown "unsupported").
Proof.
  apply (late_errors_are_rethrown (serve (serving None)) throwing_resolver
           (load_args "https://example.com/a.js") ∅ (response 200 "" None (FulfilledAt 2 []))).
  - split; [exact I | split; [| reflexivity]]. exists 1%N. split; reflexivity.
  - right. exists 2%N, []. split; reflexivity.
Defined.

(** X20.  The contents of a load that returns are the bytes of the body of
    the response that the fetch of its path gave, a response with a success
    status, as they came. *)
Theorem returned_contents_are_the_body platform params args ledger r s' :
  load platform params args ledger = (Returned (Some r), s') ->
  exists t res tb,
    network platform (la_path args) = FulfilledAt t res
    /\ ok res = true
    /\ body res = FulfilledAt tb (lr_contents r).
Proof.
  intros Hload.
  load_cases platform params args ledger; try congruence;
    match goal with
    | H : (_, _) = (Returned (Some r), s') |- _ => injection H as Hr Hs; subst r
    end; simpl; do 3 eexists; repeat split; eassumption.
Qed.

Lemma returned_contents_witness :
  exists t res tb,
    network (serve (serving None)) "https://example.com/a.js" = FulfilledAt t res
    /\ ok res = true
    /\ body res = FulfilledAt tb [].
Proof.
  apply (returned_contents_are_the_body (serve (serving None)) None
           (load_args "https://example.com/a.js") ∅
           {| lr_contents := []; lr_loader := VLoader L_js |}
           (snd (load (serve (serving None)) None (load_args "https://example.com/a.js") ∅))).
  vm_compute. reflexivity.
Defined.

(** X21.  An override that answers a loader settles the matter: the load
    returns the body with that loader, whatever the path and the content
    type, and without parsing the path as a URL -- it succeeds even where
    the URL class would reject the path. *)
Theorem override_answer_wins platform params args ledger res tb bytes l :
  response_accepted platform params args res ->
  body res = FulfilledAt tb bytes ->
  override params args res = HookReturns (Some l) ->
  fst (load platform params args ledger)
  = Returned (Some {| lr_contents := bytes; lr_loader := VLoader l |}).
Proof.
  intros (Hlog & (t & Hnet & Ht) & Hok) Hbody Ho.
  load_cases platform params args ledger; absurd_run;
    match goal with
    | H : network _ _ = FulfilledAt _ ?r |- _ => assert (r = res) by congruence; subst r
    end; absurd_run; congruence.
Qed.

Lemma override_answer_witness :
  fst (load (no_urls (serving (Some "text/css"))) text_resolver
         (load_args "https://example.com/a.ts") ∅)
  = Returned (Some {| lr_contents := []; lr_loader := VLoader L_text |}).
Proof.
  apply (override_answer_wins (no_urls (serving (Some "text/css"))) text_resolver
           (load_args "https://example.com/a.ts") ∅
           (response 200 "" (Some "text/css") (FulfilledAt 2 [])) 2 [] L_text).
  - split; [exact I | split; [| reflexivity]]. exists 1%N. split; reflexivity.
  - reflexivity.
  - reflexivity.
Defined.

(** X22.  With no override answer and a path that the URL class rejects,
    the load fails with a [TypeError] -- after the body was read and the
    ledger entry written. *)
Theorem unparsable_path_fails_after_the_body platform params args ledger res tb bytes :
  response_accepted platform params args res ->
  body res = FulfilledAt tb bytes ->
  override params args res = HookReturns None ->
  URL_pathname (url_api platform) (la_path args) = None ->
  let run := load platform params args ledger in
  fst run = Threw (TypeError "Invalid URL")
  /\ pathToResolvedUrl (snd run) !! la_path args = Some (effective_url res (la_path args))
  /\ In EvArrayBuffer (trace (snd run)).
Proof.
  intros (Hlog & (t & Hnet & Ht) & Hok) Hbody Ho Hurl run. subst run.
  load_cases platform params args ledger; absurd_run;
    match goal with
    | H : network _ _ = FulfilledAt _ ?r |- _ => assert (r = res) by congruence; subst r
    end; absurd_run.
  split; [reflexivity | split; [by rewrite lookup_insert_eq |]].
  rewrite !in_app_iff. simpl. tauto.
Qed.

Lemma unparsable_path_witness :
  fst (load (no_urls (serving None)) None (load_args "https://example.com/a.ts") ∅)
  = Threw (TypeError "Invalid URL").
Proof.
  refine (proj1 (unparsable_path_fails_after_the_body (no_urls (serving None)) None
                   (load_args "https://example.com/a.ts") ∅
                   (response 200 "" None (FulfilledAt 2 [])) 2 [] _ _ _ _)).
  - split; [exact I | split; [| reflexivity]]. exists 1%N. split; reflexivity.
  - reflexivity.
  - reflexivity.
  - reflexivity.
Defined.

(** X23.  Without an override, a loader string that a load returns is one
    the built-in inference can name: [js], [ts], [jsx], [tsx], [json],
    [css] or [text], never another of the host's loaders. *)
Theorem inferred_loader_range platform params args ledger r s' l :
  the_loaderResolver params = None ->
  load platform params args ledger = (Returned (Some r), s') ->
  accepted_loader r = Some l ->
  In l inferable_by_extension.
Proof.
  intros Hno Hload Hacc.
  load_cases platform params args ledger; try congruence;
    match goal with
    | H : (_, _) = (Returned (Some r), s') |- _ => injection H as Hr Hs; subst r
    end; unfold accepted_loader in Hacc; simpl in Hacc.
  - unfold override in *. rewrite Hno in *. congruence.
  - destruct (loaderFromPathname pathname) eqn:Hp; simpl in Hacc; try congruence.
    + injection Hacc as <-. by eapply extension_loader_listed.
    + destruct (loaderFromContentType (content_type res)) eqn:Hct; simpl in Hacc.
      * injection Hacc as <-. apply content_type_loader_listed in Hct.
        simpl in *. tauto.
      * injection Hacc as <-. simpl. tauto.
Qed.

Lemma inferred_loader_range_witness : In L_ts inferable_by_extension.
Proof.
  apply (inferred_loader_range (serve (serving (Some "application/javascript"))) None
           (load_args "https://example.com/mod.ts") ∅
           {| lr_contents := []; lr_loader := VLoader L_ts |}
           (snd (load (serve (serving (Some "application/javascript"))) None
                   (load_args "https://example.com/mod.ts") ∅)) L_ts).
  - reflexivity.
  - vm_compute. reflexivity.
  - reflexivity.
Defined.

(** X24.  When a load returns: exactly when the log hook returns (or there
    is none), the fetch gives a response before the timer's deadline (the
    delay that Node gives to [timeoutMs]), its status is
    a success, its body arrives, and either the override answers a loader,
    or it answers nothing and the path parses as a URL.  In every other
    case the load throws or never completes. *)
Theorem load_returns_iff platform params args ledger :
  (exists r, fst (load platform params args ledger) = Returned r)
  <-> (log_returns params ("Downloading: " +:+ la_path args)
       /\ exists t res tb bytes,
            network platform (la_path args) = FulfilledAt t res
            /\ (t < the_deadline params)%N
            /\ ok res = true
            /\ body res = FulfilledAt tb bytes
            /\ ((exists l, override params args res = HookReturns (Some l))
                \/ (override params args res = HookReturns None
                    /\ URL_pathname (url_api platform) (la_path args) <> None))).
Proof.
  split.
  - intros [r Hr].
    load_cases platform params args ledger; try discriminate;
      (split; [assumption|]); do 4 eexists;
      (split; [eassumption | split; [assumption | split; [assumption | split; [eassumption|]]]]).
    + left. eauto.
    + right. split; [assumption | congruence].
  - intros (Hlog & t & res & tb & bytes & Hnet & Ht & Hok & Hbody & Hover).
    load_cases platform params args ledger; absurd_run;
      match goal with
      | H : network _ _ = FulfilledAt _ ?r |- _ => assert (r = res) by congruence; subst r
      end; absurd_run; try (eexists; reflexivity);
      destruct Hover as [[l Hl] | [Hn Hu]]; congruence.
Qed.

Lemma load_returns_witness :
  exists r,
    fst (load (serve (serving None)) None (load_args "https://example.com/a.js") ∅) = Returned r.
Proof.
  refine (proj2 (load_returns_iff (serve (serving None)) None
                   (load_args "https://example.com/a.js") ∅) _).
  split; [exact I|]. exists 1%N, (response 200 "" None (FulfilledAt 2 [])), 2%N, [].
  repeat split. right. split; [reflexivity | discriminate].
Defined.

(** X25.  The order of the loader chain: when a load returns a loader
    string, it is the first non-empty result of the override, extension
    inference, content-type inference and the default [js], in this order.
    A returned result always carries a loader value, and it is no loader
    string only when no override answered and extension inference produced
    a member of [Object.prototype].  Each of the four can decide: an
    override answering [text] wins over [.ts] and [text/css]; [.ts] wins
    over [application/javascript]; without extension [application/typescript]
    decides; without extension nor known content type the loader is [js]. *)
Theorem returned_loader_string_follows_chain :
  (forall platform params args ledger r s' l,
      load platform params args ledger = (Returned (Some r), s') ->
      accepted_loader r = Some l ->
      exists t res o,
        network platform (la_path args) = FulfilledAt t res
        /\ override params args res = HookReturns o
        /\ l = first_nonempty
                 [ o;
                   string_loader (extension_inference platform (la_path args));
                   loaderFromContentType (content_type res) ]
                 L_js)
  /\ (forall platform params args ledger r s',
      load platform params args ledger = (Returned r, s') ->
      exists result,
        r = Some result
        /\ lr_loader result <> VUndefined
        /\ (accepted_loader result = None ->
            override params args
              (match network platform (la_path args) with
               | FulfilledAt _ res => res
               | _ => response 0 "" None Never
               end) = HookReturns None
            /\ exists name, extension_inference platform (la_path args) = VProtoMember name))
  /\ fst (load (serve (serving (Some "text/css"))) text_resolver
            (load_args "https://example.com/mod.ts") ∅)
     = Returned (Some {| lr_contents := []; lr_loader := VLoader L_text |})
  /\ fst (load (serve (serving (Some "application/javascript"))) None
            (load_args "https://example.com/mod.ts") ∅)
     = Returned (Some {| lr_contents := []; lr_loader := VLoader L_ts |})
  /\ fst (load (serve (serving (Some "application/typescript"))) None
            (load_args "https://example.com/mod") ∅)
     = Returned (Some {| lr_contents := []; lr_loader := VLoader L_ts |})
  /\ fst (load (serve (serving (Some "application/octet-stream"))) None
            (load_args "https://example.com/mod") ∅)
     = Returned (Some {| lr_contents := []; lr_loader := VLoader L_js |}).
Proof.
  split; [|split; [|repeat split; vm_compute; reflexivity]].
  - intros platform params args ledger r s' l Hload Hacc.
    load_cases platform params args ledger; try congruence;
      match goal with
      | H : (_, _) = (Returned (Some r), s') |- _ => injection H as Hr Hs; subst r
      end; unfold accepted_loader in Hacc; simpl in Hacc.
    + do 3 eexists. split; [eassumption | split; [eassumption |]].
      simpl. congruence.
    + do 3 eexists. split; [eassumption | split; [eassumption |]].
      unfold extension_inference.
      match goal with H : URL_pathname _ _ = Some _ |- _ => rewrite H end.
      simpl. destruct (loaderFromPathname pathname); simpl in *; try congruence.
      destruct (loaderFromContentType (content_type res)); simpl in *; congruence.
  - intros platform params args ledger r s' Hload.
    load_cases platform params args ledger; try congruence;
      match goal with
      | H : (_, _) = (Returned r, s') |- _ => injection H as Hr Hs; subst r
      end; (eexists; split; [reflexivity|]); unfold accepted_loader; simpl;
      [split; [discriminate | discriminate] |].
    match goal with H : network _ _ = FulfilledAt _ _ |- _ => rewrite H end.
    unfold extension_inference.
    match goal with H : URL_pathname _ _ = Some _ |- _ => rewrite H end.
    destruct (loaderFromPathname pathname); simpl.
    + split; discriminate.
    + split; [discriminate | eauto].
    + destruct (loaderFromContentType (content_type res)); simpl; split; discriminate.
Qed.

Lemma returned_loader_string_witness :
  exists t res o,
    network (serve (serving (Some "application/typescript"))) "https://example.com/mod"
    = FulfilledAt t res
    /\ override None (load_args "https://example.com/mod") res = HookReturns o
    /\ L_ts = first_nonempty
                [ o;
                  string_loader (extension_inference
                                   (serve (serving (Some "application/typescript")))
                                   "https://example.com/mod");
                  loaderFromContentType (content_type res) ]
                L_js.
Proof.
  eapply (proj1 returned_loader_string_follows_chain
            (serve (serving (Some "application/typescript"))) None
            (load_args "https://example.com/mod") ∅).
  - vm_compute. reflexivity.
  - reflexivity.
Defined.

(** X26.  Registered with the empty string for namespace, the plugin takes
    the modules of every namespace: the host runs [onLoad] on any module,
    and the second resolve hook on any import that is no absolute http(s)
    URL.  [fetch] is then called with the path of a local file. *)
Theorem empty_namespace_takes_every_module platform params :
  the_namespace params = "" ->
  (forall args s,
      dispatch_load (onLoad_hooks (httpImportEsbuildPlugin platform params)) args s
      = onLoad platform params args s)
  /\ (forall args s,
      ~ (exists rest, ra_path args = "http://" +:+ rest \/ ra_path args = "https://" +:+ rest) ->
      dispatch_resolve (onResolve_hooks (httpImportEsbuildPlugin platform params)) args s
      = (resolved_against platform "" (ra_path args)
           (default (ra_importer args) (pathToResolvedUrl s !! ra_importer args)), s))
  /\ In (EvFetch "/home/app/main.js")
       (trace (snd (dispatch_load
                      (onLoad_hooks (httpImportEsbuildPlugin (serve (serving None))
                                       empty_namespace))
                      {| la_path := "/home/app/main.js"; la_namespace := "file"; la_with := [] |}
                      (initial ∅)))).
Proof.
  intros Hns. split; [|split; [|vm_compute; tauto]].
  - intros args s.
    cbn [httpImportEsbuildPlugin onLoad_hooks dispatch_load load_namespace load_filter
           load_callback namespace_matches].
    rewrite Hns, String.eqb_refl. cbn [orb andb filter_any]. unfold bind.
    destruct (onLoad platform params args s) as [[[r|]| |] s1]; reflexivity.
  - intros args s Hpath.
    cbn [httpImportEsbuildPlugin onResolve_hooks dispatch_resolve resolve_namespace
           resolve_filter resolve_callback namespace_matches andb].
    rewrite (filter_http_false _ Hpath), Hns, String.eqb_refl. cbn [orb andb filter_any].
    unfold bind. rewrite onResolve_namespaced_eq, Hns. unfold resolved_against.
    destruct (URL_toString _ _ _); reflexivity.
Qed.

Lemma empty_namespace_witness :
  dispatch_load (onLoad_hooks (httpImportEsbuildPlugin (serve (serving None)) empty_namespace))
    {| la_path := "/home/app/main.js"; la_namespace := "file"; la_with := [] |} (initial ∅)
  = onLoad (serve (serving None)) empty_namespace
      {| la_path := "/home/app/main.js"; la_namespace := "file"; la_with := [] |} (initial ∅).
Proof.
  apply (proj1 (empty_namespace_takes_every_module (serve (serving None)) empty_namespace
                  eq_refl)).
Defined.
